(** * Banana Runner: the multiplayer lobby service

    A shallow embedding of [createMultiplayerService] (services/multiplayer)
    and of the properties its specification states about it.

    The service is a JavaScript closure over five mutable variables
    ([currentLobby], [lobbyPlayers], [lobbySubscription],
    [playersSubscription], [isHost]).  Every method is embedded as a
    computation in a small monad that threads these variables, records in
    order what the method asks of the outside world (store requests, channel
    operations, consumer callbacks, console output) and may raise a
    [TypeError].  What the store answers is an input of the method that
    awaits it.  Each method is first embedded as run from call to return,
    with nothing else running while it is suspended at an [await]; the
    parts of the methods between two awaits, and the sessions reached when
    calls and notifications interleave there, are embedded after them
    ([Segment], [interleaved]). *)

From Stdlib Require Import String Ascii List Bool Arith NArith ZArith Lia.
Import ListNotations.
Local Open Scope string_scope.
Local Open Scope list_scope.

Set Warnings "-register-all".

(** ** Rows of the two tables (supabase-schema.sql) *)

(** A row of [game_lobbies]; [created_at], which the service never reads,
    is left out. *)
Record Lobby : Type := mkLobby {
  lobby_id : string;
  lobby_code : string;
  lobby_host_id : string;
  lobby_land : string;
  lobby_status : string
}.

(** A row of [lobby_players], without the columns the service never reads
    ([id], [joined_at], the joined [profiles(username)]).
    [is_ready BOOLEAN DEFAULT FALSE] has no NOT NULL constraint: [None] is
    SQL NULL. *)
Record Player : Type := mkPlayer {
  player_lobby_id : string;
  player_id : string;
  is_ready : option bool
}.

(** JavaScript truthiness of a nullable boolean column. *)
Definition truthy_flag (f : option bool) : bool :=
  match f with
  | Some b => b
  | None => false
  end.

(** [!s] is true exactly for the empty string. *)
Definition falsy_str (s : string) : bool :=
  match s with
  | EmptyString => true
  | String _ _ => false
  end.

(** The error object of a failed store call; the service never looks
    inside it. *)
Inductive StoreError : Type :=
| UniqueViolation
| RowNotFound
| PermissionDenied
| NetworkFailure.

(** The [{ data, error }] answer of a store call: either data without error
    or an error without data. *)
Inductive Response (A : Type) : Type :=
| Ok (data : A)
| Failed (error : StoreError).
Arguments Ok {A} data.
Arguments Failed {A} error.

(** ** JavaScript values carried by broadcast messages *)

Inductive jsval : Type :=
| JUndefined
| JNull
| JBool (b : bool)
| JNum (n : Z)
| JStr (s : string)
| JObj (fields : list (string * jsval)).

Fixpoint lookup_field (k : string) (fs : list (string * jsval)) : jsval :=
  match fs with
  | [] => JUndefined
  | (k', v) :: rest => if String.eqb k' k then v else lookup_field k rest
  end.

(** [v.k]: reading a property of [undefined] or [null] raises a TypeError
    ([None]); a primitive has no own property of that name. *)
Definition get_prop (v : jsval) (k : string) : option jsval :=
  match v with
  | JUndefined | JNull => None
  | JObj fs => Some (lookup_field k fs)
  | _ => Some JUndefined
  end.

(** [v !== s] for a string [s]: strict equality holds only for the same
    string. *)
Definition strict_neq_str (v : jsval) (s : string) : bool :=
  match v with
  | JStr s' => negb (String.eqb s' s)
  | _ => true
  end.

(** ** What the service does to the outside world *)

Inductive Event : Type :=
| InsertLobby (code host_id land status : string)
| SelectWaitingLobbies (not_host : string)
| SelectLobbyByCode (code : string)
| InsertPlayer (lobby player : string) (ready : bool)
| SelectPlayers (lobby : string)
| UpdateLobbyStatus (lobby status : string)
| UpdatePlayerReady (lobby player : string) (ready : bool)
| DeletePlayer (lobby player : string)
| DeleteLobby (lobby : string)
| Subscribe (topic : string)
| RemoveChannel (topic : string)
| BroadcastSend (topic : string) (payload : jsval)
| ConsoleError (msg : string)
| OnLobbyUpdate (lobby : option Lobby)
| OnPlayersUpdate (players : list Player)
| OnGameStart
| OnOpponentScore (payload : jsval).

(** The closure variables of the service.  A subscription handle is
    identified with the topic of its channel. *)
Record Session : Type := mkSession {
  currentLobby : option Lobby;
  lobbyPlayers : list Player;
  lobbySubscription : option string;
  playersSubscription : option string;
  isHost : bool
}.

Definition initial : Session := mkSession None [] None None false.

Definition set_currentLobby (v : option Lobby) (s : Session) : Session :=
  mkSession v (lobbyPlayers s) (lobbySubscription s) (playersSubscription s) (isHost s).
Definition set_lobbyPlayers (v : list Player) (s : Session) : Session :=
  mkSession (currentLobby s) v (lobbySubscription s) (playersSubscription s) (isHost s).
Definition set_lobbySubscription (v : option string) (s : Session) : Session :=
  mkSession (currentLobby s) (lobbyPlayers s) v (playersSubscription s) (isHost s).
Definition set_playersSubscription (v : option string) (s : Session) : Session :=
  mkSession (currentLobby s) (lobbyPlayers s) (lobbySubscription s) v (isHost s).
Definition set_isHost (v : bool) (s : Session) : Session :=
  mkSession (currentLobby s) (lobbyPlayers s) (lobbySubscription s) (playersSubscription s) v.

(** ** The monad of service methods *)

Inductive Completion (A : Type) : Type :=
| Returns (a : A)
| Throws.
Arguments Returns {A} a.
Arguments Throws {A}.

Record Run (A : Type) : Type := mkRun {
  completion : Completion A;
  final : Session;
  trace : list Event
}.

Arguments mkRun {A} completion final trace.
Arguments completion {A} r.
Arguments final {A} r.
Arguments trace {A} r.

Definition M (A : Type) : Type := Session -> Run A.

Definition ret {A} (a : A) : M A := fun s => mkRun (Returns a) s [].

Definition bind {A B} (m : M A) (k : A -> M B) : M B :=
  fun s =>
    let r := m s in
    match completion r with
    | Returns a =>
        let r' := k a (final r) in
        mkRun (completion r') (final r') (trace r ++ trace r')
    | Throws => mkRun Throws (final r) (trace r)
    end.

Definition emit (e : Event) : M unit := fun s => mkRun (Returns tt) s [e].
Definition throw {A} : M A := fun s => mkRun Throws s [].
Definition read {A} (f : Session -> A) : M A := fun s => mkRun (Returns (f s)) s [].
Definition modify (f : Session -> Session) : M unit := fun s => mkRun (Returns tt) (f s) [].

Declare Scope service_scope.
Delimit Scope service_scope with service.
Notation "x <- m ;; k" := (bind m (fun x => k))
  (at level 100, m at next level, right associativity) : service_scope.
Notation "m ;; k" := (bind m (fun _ => k))
  (at level 100, right associativity) : service_scope.
Local Open Scope service_scope.

(** ** Strings: [substring], [toUpperCase], radix 36 *)

(** [s.substring(a, b)]: both indices are clamped to the length and swapped
    when out of order. *)
Definition js_substring (a b : nat) (s : string) : string :=
  let len := String.length s in
  let a' := Nat.min a len in
  let b' := Nat.min b len in
  let lo := Nat.min a' b' in
  let hi := Nat.max a' b' in
  substring lo (hi - lo) s.

Definition upper_ascii (c : ascii) : ascii :=
  let n := nat_of_ascii c in
  if ((97 <=? n) && (n <=? 122))%nat then ascii_of_nat (n - 32) else c.

(** [s.toUpperCase()] on the ASCII range. *)
Fixpoint toUpperCase (s : string) : string :=
  match s with
  | EmptyString => EmptyString
  | String c rest => String (upper_ascii c) (toUpperCase rest)
  end.

(** A draw of [Math.random()]: the double [mant / 2^expo], below 1. *)
Record Draw : Type := mkDraw {
  mant : N;
  expo : N
}.

Definition digit36 (d : N) : ascii :=
  if (d <? 10)%N then ascii_of_N (48 + d) else ascii_of_N (87 + d).

(** The radix-36 digits of the fraction [num / den], most significant
    first, until the remainder is zero. *)
Fixpoint frac36 (fuel : nat) (num den : N) : list N :=
  match fuel with
  | O => []
  | S fuel' =>
      if (num =? 0)%N then []
      else let x := (num * 36)%N in
           (x / den)%N :: frac36 fuel' (x mod den)%N den
  end.

Fixpoint string_of_digits (ds : list N) : string :=
  match ds with
  | [] => EmptyString
  | d :: rest => String (digit36 d) (string_of_digits rest)
  end.

(** [x.toString(36)] for a draw [x] in [0, 1) whose radix-36 expansion is
    printed in full: ["0"] for zero, otherwise ["0."] and the digits.  A
    dyadic fraction with [expo] binary places has at most [expo] radix-36
    places. *)
Definition toString36 (x : Draw) : string :=
  if (mant x =? 0)%N then "0"
  else "0." ++ string_of_digits (frac36 (S (N.to_nat (expo x))) (mant x) (2 ^ expo x)%N).

(** [generateLobbyCode], as a function of [Math.random().toString(36)]. *)
Definition generateLobbyCode (r36 : string) : string :=
  toUpperCase (js_substring 2 8 r36).

(** ** The service *)

(** A change-feed notification for a [game_lobbies] row: the kind of change
    and the new row, if the notification carries one. *)
Inductive ChangeOp : Type := INSERT | UPDATE | DELETE.

Record LobbyChange : Type := mkLobbyChange {
  eventType : ChangeOp;
  new_row : option Lobby
}.

(** A message of the broadcast channel; [msg_payload] is
    [payload.payload]. *)
Record Broadcast : Type := mkBroadcast {
  msg_payload : jsval
}.

Section Service.

(** [true] when the factory was given a client, [false] for a null one. *)
Variable supabaseClient : bool.

(** [unsubscribe] *)
Definition unsubscribe : M unit :=
  ls <- read lobbySubscription ;;
  match ls with
  | Some ch => emit (RemoveChannel ch) ;; modify (set_lobbySubscription None)
  | None => ret tt
  end ;;
  ps <- read playersSubscription ;;
  match ps with
  | Some ch => emit (RemoveChannel ch) ;; modify (set_playersSubscription None)
  | None => ret tt
  end.

(** [joinLobby]: the insert of the membership row; [resp] is its error,
    if any. *)
Definition joinLobby (lobbyId playerId : string) (resp : option StoreError) : M unit :=
  emit (InsertPlayer lobbyId playerId false) ;;
  match resp with
  | Some _ => emit (ConsoleError "Error joining lobby:")
  | None => ret tt
  end.

(** [refreshPlayers] up to its [await]: the select is issued. *)
Definition refreshPlayers_request (lobbyId : string) : M unit :=
  emit (SelectPlayers lobbyId).

(** [refreshPlayers] from its [await] on: the answer is in. *)
Definition refreshPlayers_resume (resp : Response (list Player)) : M unit :=
  match resp with
  | Ok data =>
      modify (set_lobbyPlayers data) ;;
      ps <- read lobbyPlayers ;;
      emit (OnPlayersUpdate ps)
  | Failed _ => ret tt
  end.

Definition refreshPlayers (lobbyId : string) (resp : Response (list Player)) : M unit :=
  refreshPlayers_request lobbyId ;;
  refreshPlayers_resume resp.

(** [checkAllReady] *)
Definition checkAllReady : M unit :=
  host <- read isHost ;;
  players <- read lobbyPlayers ;;
  if negb host || (List.length players <? 2)%nat then ret tt
  else
    let allReady := forallb (fun p => truthy_flag (is_ready p)) players in
    if allReady then
      cur <- read currentLobby ;;
      match cur with
      | Some l => emit (UpdateLobbyStatus (lobby_id l) "playing")
      | None => throw
      end
    else ret tt.

(** The handler [subscribeToLobby] installs on the [game_lobbies] feed. *)
Definition lobbyChanged (payload : LobbyChange) : M unit :=
  match new_row payload with
  | Some row =>
      modify (set_currentLobby (Some row)) ;;
      cur <- read currentLobby ;;
      emit (OnLobbyUpdate cur) ;;
      if String.eqb (lobby_status row) "playing" then emit OnGameStart
      else ret tt
  | None => ret tt
  end.

(** The handler [subscribeToLobby] installs on the [lobby_players] feed;
    [resp] answers the refresh it awaits. *)
Definition playersChanged (lobbyId : string) (resp : Response (list Player)) : M unit :=
  refreshPlayers lobbyId resp ;;
  checkAllReady.

(** [subscribeToLobby].  The initial [refreshPlayers] is called and not
    awaited: its select is issued here, and [refreshPlayers_resume] is a
    later step, run when the answer arrives. *)
Definition subscribeToLobby (lobbyId : string) : M unit :=
  unsubscribe ;;
  emit (Subscribe ("lobby:" ++ lobbyId)%string) ;;
  modify (set_lobbySubscription (Some ("lobby:" ++ lobbyId)%string)) ;;
  emit (Subscribe ("lobby_players:" ++ lobbyId)%string) ;;
  modify (set_playersSubscription (Some ("lobby_players:" ++ lobbyId)%string)) ;;
  refreshPlayers_request lobbyId.

(** [createLobby]; [r36] is [Math.random().toString(36)], [ins] answers
    the insert of the lobby row and [joined] the insert of the host's
    membership row. *)
Definition createLobby (hostId land : string) (r36 : string)
    (ins : Response Lobby) (joined : option StoreError) : M (option Lobby) :=
  if negb supabaseClient || falsy_str hostId then ret None
  else
    let code := generateLobbyCode r36 in
    emit (InsertLobby code hostId land "waiting") ;;
    match ins with
    | Failed _ =>
        emit (ConsoleError "Error creating lobby:") ;;
        ret None
    | Ok data =>
        modify (set_currentLobby (Some data)) ;;
        modify (set_isHost true) ;;
        joinLobby (lobby_id data) hostId joined ;;
        subscribeToLobby (lobby_id data) ;;
        cur <- read currentLobby ;;
        emit (OnLobbyUpdate cur) ;;
        ret (Some data)
    end.

(** [findOrCreateLobby]; [found] answers the select of waiting lobbies,
    the other inputs are those of [createLobby]. *)
Definition findOrCreateLobby (playerId land : string)
    (found : Response (list Lobby)) (joined : option StoreError)
    (r36 : string) (ins : Response Lobby) : M (option Lobby) :=
  if negb supabaseClient || falsy_str playerId then ret None
  else
    emit (SelectWaitingLobbies playerId) ;;
    match found with
    | Ok (lobby :: _) =>
        modify (set_currentLobby (Some lobby)) ;;
        modify (set_isHost false) ;;
        joinLobby (lobby_id lobby) playerId joined ;;
        subscribeToLobby (lobby_id lobby) ;;
        cur <- read currentLobby ;;
        emit (OnLobbyUpdate cur) ;;
        ret (Some lobby)
    | _ => createLobby playerId land r36 ins joined
    end.

(** [joinByCode]; [found] answers the single-row select. *)
Definition joinByCode (code playerId : string)
    (found : Response Lobby) (joined : option StoreError) : M (option Lobby) :=
  if negb supabaseClient || falsy_str playerId then ret None
  else
    emit (SelectLobbyByCode (toUpperCase code)) ;;
    match found with
    | Failed _ =>
        emit (ConsoleError "Lobby not found:") ;;
        ret None
    | Ok lobby =>
        modify (set_currentLobby (Some lobby)) ;;
        modify (set_isHost false) ;;
        joinLobby (lobby_id lobby) playerId joined ;;
        subscribeToLobby (lobby_id lobby) ;;
        cur <- read currentLobby ;;
        emit (OnLobbyUpdate cur) ;;
        ret (Some lobby)
    end.

(** [toggleReady] *)
Definition toggleReady (playerId : string) : M bool :=
  cur <- read currentLobby ;;
  match cur with
  | None => ret false
  | Some l =>
      if falsy_str playerId then ret false
      else
        players <- read lobbyPlayers ;;
        let currentPlayer := find (fun p => String.eqb (player_id p) playerId) players in
        let newReady :=
          negb (match currentPlayer with
                | Some p => truthy_flag (is_ready p)
                | None => false
                end) in
        emit (UpdatePlayerReady (lobby_id l) playerId newReady) ;;
        ret newReady
  end.

(** [leaveLobby].  Neither delete looks at its answer. *)
Definition leaveLobby (playerId : string) : M unit :=
  cur <- read currentLobby ;;
  match cur with
  | None => ret tt
  | Some l =>
      if falsy_str playerId then ret tt
      else
        emit (DeletePlayer (lobby_id l) playerId) ;;
        host <- read isHost ;;
        (if host then
           cur' <- read currentLobby ;;
           match cur' with
           | Some l' => emit (DeleteLobby (lobby_id l'))
           | None => throw
           end
         else ret tt) ;;
        unsubscribe ;;
        modify (set_currentLobby None) ;;
        modify (set_lobbyPlayers []) ;;
        modify (set_isHost false) ;;
        emit (OnLobbyUpdate None) ;;
        emit (OnPlayersUpdate [])
  end.

(** [broadcastGameState] *)
Definition broadcastGameState (state : jsval) : M unit :=
  cur <- read currentLobby ;;
  match cur with
  | None => ret tt
  | Some l => emit (BroadcastSend ("game:" ++ lobby_id l)%string state)
  end.

(** [listenForOpponentState]: the channel is opened and subscribed; its
    handle is kept nowhere. *)
Definition listenForOpponentState (playerId : string) : M unit :=
  cur <- read currentLobby ;;
  match cur with
  | None => ret tt
  | Some l => emit (Subscribe ("game:" ++ lobby_id l)%string)
  end.

(** The handler [listenForOpponentState playerId] installs on the
    broadcast channel. *)
Definition opponentState (playerId : string) (payload : Broadcast) : M unit :=
  match get_prop (msg_payload payload) "playerId" with
  | None => throw
  | Some sender =>
      if strict_neq_str sender playerId then emit (OnOpponentScore (msg_payload payload))
      else ret tt
  end.

(** The lobby feed delivering a sequence of notifications. *)
Fixpoint deliver (payloads : list LobbyChange) : M unit :=
  match payloads with
  | [] => ret tt
  | p :: rest => lobbyChanged p ;; deliver rest
  end.

End Service.

(** ** The getters *)

(** [getLobby] *)
Definition getLobby : M (option Lobby) := read currentLobby.

(** [getPlayers] *)
Definition getPlayers : M (list Player) := read lobbyPlayers.

(** [isLobbyHost] *)
Definition isLobbyHost : M bool := read isHost.

(** ** The vocabulary of the properties *)

Fixpoint string_forallb (f : ascii -> bool) (s : string) : bool :=
  match s with
  | EmptyString => true
  | String c rest => f c && string_forallb f rest
  end.

(** A digit of radix 36 as [toString(36)] prints it. *)
Definition is_base36 (c : ascii) : bool :=
  let n := nat_of_ascii c in
  (((48 <=? n) && (n <=? 57)) || ((97 <=? n) && (n <=? 122)))%nat.

(** An uppercase letter or a digit. *)
Definition is_upper_alnum (c : ascii) : bool :=
  let n := nat_of_ascii c in
  (((48 <=? n) && (n <=? 57)) || ((65 <=? n) && (n <=? 90)))%nat.

Definition all_ready (ps : list Player) : Prop :=
  Forall (fun p => is_ready p = Some true) ps.

(** The condition under which the host starts the match. *)
Definition start_condition (s : Session) : Prop :=
  isHost s = true /\ 2 <= List.length (lobbyPlayers s) /\ all_ready (lobbyPlayers s).

(** The decision [checkAllReady] takes, as a boolean. *)
Definition starts (s : Session) : bool :=
  isHost s && (2 <=? List.length (lobbyPlayers s))%nat
  && forallb (fun p => truthy_flag (is_ready p)) (lobbyPlayers s).

(** The invariant that makes [currentLobby.id] safe in [checkAllReady]:
    a host has a current lobby. *)
Definition host_has_lobby (s : Session) : Prop :=
  isHost s = true -> currentLobby s <> None.

(** The snapshot [checkAllReady] sees after the refresh of the players
    handler: the rows just read, or the previous ones when the read
    failed. *)
Definition refreshed (resp : Response (list Player)) (s : Session) : Session :=
  match resp with
  | Ok data => set_lobbyPlayers data s
  | Failed _ => s
  end.

Definition with_status (status : string) (l : Lobby) : Lobby :=
  mkLobby (lobby_id l) (lobby_code l) (lobby_host_id l) (lobby_land l) status.

(** C2 as the specification has it: a check made while the current lobby
    is 'playing' writes nothing. *)
Definition no_write_once_playing (s : Session) : Prop :=
  forall l, currentLobby s = Some l -> lobby_status l = "playing" ->
            trace (checkAllReady s) = [].

Definition is_game_start (e : Event) : bool :=
  match e with
  | OnGameStart => true
  | _ => false
  end.

(** How many times a trace calls [onGameStart]. *)
Definition game_starts (t : list Event) : nat :=
  List.length (filter is_game_start t).

Definition says_playing (p : LobbyChange) : bool :=
  match new_row p with
  | Some row => String.eqb (lobby_status row) "playing"
  | None => false
  end.

(** The [removeChannel] call made for a held handle. *)
Definition removal (handle : option string) : list Event :=
  match handle with
  | Some ch => [RemoveChannel ch]
  | None => []
  end.

(** The channels left open by a trace: opened by [subscribe], closed by
    [removeChannel]. *)
Fixpoint open_channels_from (open : list string) (t : list Event) : list string :=
  match t with
  | [] => open
  | Subscribe ch :: rest => open_channels_from (open ++ [ch]) rest
  | RemoveChannel ch :: rest => open_channels_from (remove string_dec ch open) rest
  | _ :: rest => open_channels_from open rest
  end.

Definition open_channels (t : list Event) : list string := open_channels_from [] t.

Definition session_cleared (s : Session) : Prop :=
  currentLobby s = None /\ lobbyPlayers s = [] /\ isHost s = false.

Definition is_lobby_insert (e : Event) : bool :=
  match e with
  | InsertLobby _ _ _ _ => true
  | _ => false
  end.

(** How many times a trace inserts a lobby row. *)
Definition lobby_inserts (t : list Event) : nat :=
  List.length (filter is_lobby_insert t).

(** ** The session as a state machine *)

(** One step of the service: a method called by the application or a
    handler called by a feed, with the answers of the store it awaits. *)
Inductive Call : Type :=
| CreateLobby (hostId land r36 : string) (ins : Response Lobby) (joined : option StoreError)
| FindOrCreateLobby (playerId land : string) (found : Response (list Lobby))
    (joined : option StoreError) (r36 : string) (ins : Response Lobby)
| JoinByCode (code playerId : string) (found : Response Lobby) (joined : option StoreError)
| ToggleReady (playerId : string)
| LeaveLobby (playerId : string)
| BroadcastGameState (state : jsval)
| ListenForOpponentState (playerId : string)
| Unsubscribe
| LobbyChanged (payload : LobbyChange)
| PlayersChanged (lobbyId : string) (resp : Response (list Player))
| PlayersLoaded (resp : Response (list Player))
| OpponentState (self : string) (payload : Broadcast).

Definition discard {A} (m : M A) : M unit := _ <- m ;; ret tt.

Definition perform (client : bool) (c : Call) : M unit :=
  match c with
  | CreateLobby hostId land r36 ins joined =>
      discard (createLobby client hostId land r36 ins joined)
  | FindOrCreateLobby playerId land found joined r36 ins =>
      discard (findOrCreateLobby client playerId land found joined r36 ins)
  | JoinByCode code playerId found joined =>
      discard (joinByCode client code playerId found joined)
  | ToggleReady playerId => discard (toggleReady playerId)
  | LeaveLobby playerId => leaveLobby playerId
  | BroadcastGameState state => broadcastGameState state
  | ListenForOpponentState playerId => listenForOpponentState playerId
  | Unsubscribe => unsubscribe
  | LobbyChanged payload => lobbyChanged payload
  | PlayersChanged lobbyId resp => playersChanged lobbyId resp
  | PlayersLoaded resp => refreshPlayers_resume resp
  | OpponentState self payload => opponentState self payload
  end.

(** The sessions a service can be in when every call runs to its end before
    the next step starts.  The interleavings of calls suspended at an
    [await] are those of [interleaved], further down. *)
Inductive reachable (client : bool) : Session -> Prop :=
| reach_initial : reachable client initial
| reach_step (s : Session) (c : Call) :
    reachable client s -> reachable client (final (perform client c s)).

(** ** Sessions and notifications used as examples *)

Definition lobby1 : Lobby := mkLobby "L1" "4FZYO8" "H" "snow" "waiting".
Definition lobby1_playing : Lobby := mkLobby "L1" "4FZYO8" "H" "snow" "playing".
Definition both_ready : list Player :=
  [mkPlayer "L1" "H" (Some true); mkPlayer "L1" "G" (Some true)].

(** The host of [lobby1], subscribed, both members ready. *)
Definition host_ready : Session :=
  mkSession (Some lobby1) both_ready (Some "lobby:L1") (Some "lobby_players:L1") true.

(** The guest of [lobby1], subscribed. *)
Definition guest_waiting : Session :=
  mkSession (Some lobby1) both_ready (Some "lobby:L1") (Some "lobby_players:L1") false.

(** The host of [lobby1] once the feed has told it that the lobby is
    'playing'. *)
Definition host_playing : Session :=
  final (lobbyChanged (mkLobbyChange UPDATE (Some lobby1_playing)) host_ready).

(** The notification of the lobby turning 'playing'. *)
Definition now_playing : LobbyChange := mkLobbyChange UPDATE (Some lobby1_playing).

(** A whole session of the host: create the lobby, receive the first
    snapshot, listen to the opponent, leave. *)
Definition host_session (leaver : string) : M unit :=
  createLobby true "H" "snow" "0.4fzyo82mvyr" (Ok lobby1) None ;;
  refreshPlayers_resume (Ok [mkPlayer "L1" "H" (Some false)]) ;;
  listenForOpponentState "H" ;;
  leaveLobby leaver.

(** ** Histories of a session *)

(** The session and the whole trace after a sequence of steps.  A step that
    raises ends that step only: the next one still runs. *)
Fixpoint history (client : bool) (cs : list Call) (s : Session) : Session * list Event :=
  match cs with
  | [] => (s, [])
  | c :: rest =>
      let r := perform client c s in
      let after := history client rest (final r) in
      (fst after, trace r ++ snd after)
  end.

(** The topic of a broadcast channel, ["game:..."]. *)
Definition is_game_topic (topic : string) : bool := String.prefix "game:" topic.

(** Among open channels, those of the change feeds. *)
Definition feed_channels (open : list string) : list string :=
  filter (fun topic => negb (is_game_topic topic)) open.

(** The handles the session holds. *)
Definition held (s : Session) : list string :=
  match lobbySubscription s with Some ch => [ch] | None => [] end
  ++ match playersSubscription s with Some ch => [ch] | None => [] end.

(** The handles are both null, or those of the two feeds of one lobby. *)
Definition handles_paired (s : Session) : Prop :=
  (lobbySubscription s = None /\ playersSubscription s = None) \/
  exists lobbyId,
    lobbySubscription s = Some ("lobby:" ++ lobbyId)%string /\
    playersSubscription s = Some ("lobby_players:" ++ lobbyId)%string.

Definition is_channel_event (e : Event) : bool :=
  match e with
  | Subscribe _ | RemoveChannel _ => true
  | _ => false
  end.

(** The channel operations of a trace. *)
Definition channel_ops (t : list Event) : list Event := filter is_channel_event t.

(** A write to a row of [game_lobbies] that only its host may make. *)
Definition is_host_write (e : Event) : bool :=
  match e with
  | UpdateLobbyStatus _ _ | DeleteLobby _ => true
  | _ => false
  end.

(** A step made by a feed or by the broadcast channel, not by the
    application. *)
Definition is_notification (c : Call) : bool :=
  match c with
  | LobbyChanged _ | PlayersChanged _ _ | PlayersLoaded _ | OpponentState _ _ => true
  | _ => false
  end.


(** ** The lobby handler on raw payloads *)

(** JavaScript truthiness. *)
Definition truthy (v : jsval) : bool :=
  match v with
  | JUndefined | JNull => false
  | JBool b => b
  | JNum n => negb (Z.eqb n 0)
  | JStr s => negb (falsy_str s)
  | JObj _ => true
  end.

(** A call of a consumer by the lobby handler, with the value passed. *)
Inductive ConsumerCall : Type :=
| LobbyUpdateCall (arg : jsval)
| GameStartCall.

(** What one run of the lobby handler does: the value it assigns to
    [currentLobby], if it assigns one, and the consumers it calls. *)
Record HandlerRun : Type := mkHandlerRun {
  assigned : option jsval;
  calls : list ConsumerCall
}.

(** The handler [subscribeToLobby] installs on the [game_lobbies] feed, on
    [payload.new] as the realtime client hands it over, whatever its shape:
    a row object, the empty object, null.  A truthy value is never
    [undefined] or [null], so reading its [status] does not raise. *)
Definition lobbyChanged_raw (payload_new : jsval) : HandlerRun :=
  if truthy payload_new then
    mkHandlerRun (Some payload_new)
      (LobbyUpdateCall payload_new
         :: match get_prop payload_new "status" with
            | Some status =>
                if strict_neq_str status "playing" then [] else [GameStartCall]
            | None => []
            end)
  else mkHandlerRun None [].

(** A row as the object the client delivers. *)
Definition object_of_lobby (l : Lobby) : jsval :=
  JObj [("id", JStr (lobby_id l)); ("code", JStr (lobby_code l));
        ("host_id", JStr (lobby_host_id l)); ("land", JStr (lobby_land l));
        ("status", JStr (lobby_status l))].

(** The consumer calls among the events of a trace of [lobbyChanged]. *)
Fixpoint consumer_calls (t : list Event) : list ConsumerCall :=
  match t with
  | [] => []
  | OnLobbyUpdate (Some row) :: rest => LobbyUpdateCall (object_of_lobby row) :: consumer_calls rest
  | OnLobbyUpdate None :: rest => LobbyUpdateCall JNull :: consumer_calls rest
  | OnGameStart :: rest => GameStartCall :: consumer_calls rest
  | _ :: rest => consumer_calls rest
  end.

(** ** The methods cut at their awaits *)

(** Where a method that has not returned is suspended. *)
Inductive Awaiting : Type :=
| AwaitStore                  (* on the method's own insert, lookup or search *)
| AwaitJoin (lobby : Lobby)   (* on [joinLobby], entering [lobby] *)
| Finished.                   (* nowhere: the method has returned null *)

(** [createLobby] from its call to the [await] of the lobby insert. *)
Definition createLobby_call (client : bool) (hostId land r36 : string) : M Awaiting :=
  if negb client || falsy_str hostId then ret Finished
  else
    emit (InsertLobby (generateLobbyCode r36) hostId land "waiting") ;;
    ret AwaitStore.

(** [createLobby] from the answer of the lobby insert to the [await] inside
    [joinLobby]. *)
Definition createLobby_inserted (hostId : string) (ins : Response Lobby) : M Awaiting :=
  match ins with
  | Failed _ =>
      emit (ConsoleError "Error creating lobby:") ;;
      ret Finished
  | Ok data =>
      modify (set_currentLobby (Some data)) ;;
      modify (set_isHost true) ;;
      emit (InsertPlayer (lobby_id data) hostId false) ;;
      ret (AwaitJoin data)
  end.

(** From the answer of the membership insert to the return: the end of
    [joinLobby], then the last three lines of [createLobby], of the join
    branch of [findOrCreateLobby] and of [joinByCode], which are the
    same. *)
Definition entered (lobby : Lobby) (joined : option StoreError) : M (option Lobby) :=
  match joined with
  | Some _ => emit (ConsoleError "Error joining lobby:")
  | None => ret tt
  end ;;
  subscribeToLobby (lobby_id lobby) ;;
  cur <- read currentLobby ;;
  emit (OnLobbyUpdate cur) ;;
  ret (Some lobby).

(** [joinByCode] from its call to the [await] of the lookup. *)
Definition joinByCode_call (client : bool) (code playerId : string) : M Awaiting :=
  if negb client || falsy_str playerId then ret Finished
  else
    emit (SelectLobbyByCode (toUpperCase code)) ;;
    ret AwaitStore.

(** [joinByCode] from the answer of the lookup to the [await] inside
    [joinLobby]. *)
Definition joinByCode_found (playerId : string) (found : Response Lobby) : M Awaiting :=
  match found with
  | Failed _ =>
      emit (ConsoleError "Lobby not found:") ;;
      ret Finished
  | Ok lobby =>
      modify (set_currentLobby (Some lobby)) ;;
      modify (set_isHost false) ;;
      emit (InsertPlayer (lobby_id lobby) playerId false) ;;
      ret (AwaitJoin lobby)
  end.

(** [findOrCreateLobby] from its call to the [await] of the search. *)
Definition findOrCreateLobby_call (client : bool) (playerId : string) : M Awaiting :=
  if negb client || falsy_str playerId then ret Finished
  else
    emit (SelectWaitingLobbies playerId) ;;
    ret AwaitStore.

(** [findOrCreateLobby] from the answer of the search to the next [await]:
    that of [joinLobby] when a lobby was found, that of the lobby insert of
    [createLobby] otherwise. *)
Definition findOrCreateLobby_found (client : bool) (playerId land r36 : string)
    (found : Response (list Lobby)) : M Awaiting :=
  match found with
  | Ok (lobby :: _) =>
      modify (set_currentLobby (Some lobby)) ;;
      modify (set_isHost false) ;;
      emit (InsertPlayer (lobby_id lobby) playerId false) ;;
      ret (AwaitJoin lobby)
  | _ => createLobby_call client playerId land r36
  end.

(** The last six lines of [leaveLobby]. *)
Definition leaveLobby_clear : M unit :=
  unsubscribe ;;
  modify (set_currentLobby None) ;;
  modify (set_lobbyPlayers []) ;;
  modify (set_isHost false) ;;
  emit (OnLobbyUpdate None) ;;
  emit (OnPlayersUpdate []).

(** [leaveLobby] from its call to the [await] of the membership delete;
    [true] when it is suspended there. *)
Definition leaveLobby_call (playerId : string) : M bool :=
  cur <- read currentLobby ;;
  match cur with
  | None => ret false
  | Some l =>
      if falsy_str playerId then ret false
      else
        emit (DeletePlayer (lobby_id l) playerId) ;;
        ret true
  end.

(** [leaveLobby] from the answer of the membership delete: a host goes on
    to the [await] of the lobby delete ([true]), anyone else to the end. *)
Definition leaveLobby_left : M bool :=
  host <- read isHost ;;
  if host then
    cur <- read currentLobby ;;
    match cur with
    | Some l => emit (DeleteLobby (lobby_id l)) ;; ret true
    | None => throw
    end
  else
    leaveLobby_clear ;;
    ret false.

(** The players handler from the answer of its refresh on. *)
Definition playersChanged_resume (resp : Response (list Player)) : M unit :=
  refreshPlayers_resume resp ;;
  checkAllReady.

(** The segments of each method put end to end: the method when nothing
    else runs while it is suspended. *)
Definition createLobby_uninterrupted (client : bool) (hostId land r36 : string)
    (ins : Response Lobby) (joined : option StoreError) : M (option Lobby) :=
  a <- createLobby_call client hostId land r36 ;;
  match a with
  | Finished => ret None
  | _ =>
      b <- createLobby_inserted hostId ins ;;
      match b with
      | AwaitJoin data => entered data joined
      | _ => ret None
      end
  end.

Definition joinByCode_uninterrupted (client : bool) (code playerId : string)
    (found : Response Lobby) (joined : option StoreError) : M (option Lobby) :=
  a <- joinByCode_call client code playerId ;;
  match a with
  | Finished => ret None
  | _ =>
      b <- joinByCode_found playerId found ;;
      match b with
      | AwaitJoin lobby => entered lobby joined
      | _ => ret None
      end
  end.

Definition findOrCreateLobby_uninterrupted (client : bool) (playerId land : string)
    (found : Response (list Lobby)) (joined : option StoreError)
    (r36 : string) (ins : Response Lobby) : M (option Lobby) :=
  a <- findOrCreateLobby_call client playerId ;;
  match a with
  | Finished => ret None
  | _ =>
      b <- findOrCreateLobby_found client playerId land r36 found ;;
      match b with
      | AwaitJoin lobby => entered lobby joined
      | Finished => ret None
      | AwaitStore =>
          c <- createLobby_inserted playerId ins ;;
          match c with
          | AwaitJoin data => entered data joined
          | _ => ret None
          end
      end
  end.

Definition leaveLobby_uninterrupted (playerId : string) : M unit :=
  a <- leaveLobby_call playerId ;;
  if a then
    b <- leaveLobby_left ;;
    if b then leaveLobby_clear else ret tt
  else ret tt.

Definition playersChanged_uninterrupted (lobbyId : string)
    (resp : Response (list Player)) : M unit :=
  refreshPlayers_request lobbyId ;;
  playersChanged_resume resp.

(** A step of a service whose calls interleave: a whole call or
    notification, or the part of a method between two awaits. *)
Inductive Segment : Type :=
| Whole (c : Call)
| CreateLobbyCall (hostId land r36 : string)
| CreateLobbyInserted (hostId : string) (ins : Response Lobby)
| Entered (lobby : Lobby) (joined : option StoreError)
| JoinByCodeCall (code playerId : string)
| JoinByCodeFound (playerId : string) (found : Response Lobby)
| FindOrCreateLobbyCall (playerId : string)
| FindOrCreateLobbyFound (playerId land r36 : string) (found : Response (list Lobby))
| LeaveLobbyCall (playerId : string)
| LeaveLobbyLeft
| LeaveLobbyClear
| PlayersChangedRequest (lobbyId : string)
| PlayersChangedResume (resp : Response (list Player)).

Definition run_segment (client : bool) (g : Segment) : M unit :=
  match g with
  | Whole c => perform client c
  | CreateLobbyCall hostId land r36 => discard (createLobby_call client hostId land r36)
  | CreateLobbyInserted hostId ins => discard (createLobby_inserted hostId ins)
  | Entered lobby joined => discard (entered lobby joined)
  | JoinByCodeCall code playerId => discard (joinByCode_call client code playerId)
  | JoinByCodeFound playerId found => discard (joinByCode_found playerId found)
  | FindOrCreateLobbyCall playerId => discard (findOrCreateLobby_call client playerId)
  | FindOrCreateLobbyFound playerId land r36 found =>
      discard (findOrCreateLobby_found client playerId land r36 found)
  | LeaveLobbyCall playerId => discard (leaveLobby_call playerId)
  | LeaveLobbyLeft => discard leaveLobby_left
  | LeaveLobbyClear => leaveLobby_clear
  | PlayersChangedRequest lobbyId => refreshPlayers_request lobbyId
  | PlayersChangedResume resp => playersChanged_resume resp
  end.

(** The sessions a service can be in when its calls interleave: any
    sequence of segments, in any order.  Every real run is such a
    sequence. *)
Inductive interleaved (client : bool) : Session -> Prop :=
| inter_initial : interleaved client initial
| inter_step (s : Session) (g : Segment) :
    interleaved client s -> interleaved client (final (run_segment client g s)).

(** * Properties *)

Example generateLobbyCode_typical :
  generateLobbyCode "0.4fzyo82mvyr" = "4FZYO8".
Proof. reflexivity. Qed.

Example toString36_half : toString36 (mkDraw 1 1) = "0.i".
Proof. reflexivity. Qed.

Example toString36_zero : toString36 (mkDraw 0 0) = "0".
Proof. reflexivity. Qed.

(** ** Join codes *)

Lemma substring_length (n m : nat) (s : string) :
  String.length (substring n m s) = Nat.min m (String.length s - n).
Proof.
  revert n m; induction s as [|c s IH]; intros n m.
  - destruct n, m; reflexivity.
  - destruct n as [|n].
    + destruct m as [|m]; [reflexivity|].
      simpl. rewrite IH, Nat.sub_0_r. reflexivity.
    + simpl. apply IH.
Qed.

Lemma toUpperCase_length (s : string) :
  String.length (toUpperCase s) = String.length s.
Proof. induction s as [|c s IH]; simpl; congruence. Qed.

Lemma generateLobbyCode_length (r36 : string) :
  String.length (generateLobbyCode r36) = Nat.min 6 (String.length r36 - 2).
Proof.
  unfold generateLobbyCode, js_substring.
  rewrite toUpperCase_length, substring_length. lia.
Qed.

Lemma upper_ascii_base36 (c : ascii) :
  is_base36 c = true -> is_upper_alnum (upper_ascii c) = true.
Proof.
  destruct c as [[] [] [] [] [] [] [] []]; vm_compute; intros H;
    first [reflexivity | discriminate H].
Qed.

Lemma substring_forallb (f : ascii -> bool) (n m : nat) (s : string) :
  string_forallb f s = true -> string_forallb f (substring n m s) = true.
Proof.
  revert n m; induction s as [|c s IH]; intros n m H.
  - destruct n, m; reflexivity.
  - simpl in H. apply andb_true_iff in H as [Hc Hs].
    destruct n as [|n].
    + destruct m as [|m]; [reflexivity|].
      simpl. rewrite Hc. simpl. apply IH, Hs.
    + simpl. apply IH, Hs.
Qed.

Lemma toUpperCase_alnum (s : string) :
  string_forallb is_base36 s = true ->
  string_forallb is_upper_alnum (toUpperCase s) = true.
Proof.
  induction s as [|c s IH]; simpl; intros H; [reflexivity|].
  apply andb_true_iff in H as [Hc Hs].
  rewrite (upper_ascii_base36 _ Hc). simpl. apply IH, Hs.
Qed.

(** On a draw printed as ["0."] followed by radix-36 digits, the code is
    made of uppercase letters and digits, as many as there are digits up to
    six. *)
Lemma generateLobbyCode_of_digits (ds : string) :
  string_forallb is_base36 ds = true ->
  string_forallb is_upper_alnum (generateLobbyCode ("0." ++ ds)) = true /\
  String.length (generateLobbyCode ("0." ++ ds)) = Nat.min 6 (String.length ds).
Proof.
  intros H. split.
  - unfold generateLobbyCode, js_substring.
    apply toUpperCase_alnum.
    change (String.length ("0." ++ ds)) with (S (S (String.length ds))).
    replace (Nat.min (Nat.min 2 (S (S (String.length ds))))
                     (Nat.min 8 (S (S (String.length ds))))) with 2 by lia.
    change (substring 2 ?m ("0." ++ ds)) with (substring 0 m ds).
    apply substring_forallb, H.
  - rewrite generateLobbyCode_length.
    change (String.length ("0." ++ ds)) with (S (S (String.length ds))). lia.
Qed.

(** C6 (fails on the code): [generateLobbyCode] does not return six
    characters for every draw.  When [Math.random()] draws 1/2, printed
    ["0.i"] in radix 36, the code is the single character ["I"]; when it
    draws 0, printed ["0"], the code is empty. *)
Theorem generateLobbyCode_short_draw :
  generateLobbyCode (toString36 (mkDraw 1 1)) = "I" /\
  String.length (generateLobbyCode (toString36 (mkDraw 1 1))) = 1 /\
  generateLobbyCode (toString36 (mkDraw 0 0)) = "".
Proof. repeat split. Qed.

(** ** Readiness *)

Lemma truthy_flag_true (f : option bool) :
  truthy_flag f = true <-> f = Some true.
Proof.
  destruct f as [[]|]; simpl; split; intros H;
    first [reflexivity | discriminate H].
Qed.

Lemma forallb_all_ready (ps : list Player) :
  forallb (fun p => truthy_flag (is_ready p)) ps = true <-> all_ready ps.
Proof.
  unfold all_ready. rewrite forallb_forall, Forall_forall.
  split; intros H p Hp; apply truthy_flag_true, H, Hp.
Qed.

Lemma starts_spec (s : Session) : starts s = true <-> start_condition s.
Proof.
  unfold starts, start_condition.
  rewrite !andb_true_iff, Nat.leb_le, forallb_all_ready. tauto.
Qed.

Lemma checkAllReady_run (s : Session) (l : Lobby) :
  currentLobby s = Some l ->
  checkAllReady s =
    mkRun (Returns tt) s
      (if starts s then [UpdateLobbyStatus (lobby_id l) "playing"] else []).
Proof.
  intros Hl. unfold checkAllReady, starts, bind, read. cbn [completion final trace].
  rewrite Nat.ltb_antisym.
  destruct (isHost s); cbn [negb orb andb]; [|reflexivity].
  destruct (2 <=? List.length (lobbyPlayers s))%nat; cbn [negb andb]; [|reflexivity].
  destruct (forallb _ (lobbyPlayers s)); [|reflexivity].
  cbn [completion final trace]. rewrite Hl. reflexivity.
Qed.

Lemma refreshPlayers_final (lobbyId : string) (resp : Response (list Player)) (s : Session) :
  final (refreshPlayers lobbyId resp s) = refreshed resp s /\
  completion (refreshPlayers lobbyId resp s) = Returns tt.
Proof. destruct resp; split; reflexivity. Qed.

(** C1: on a membership change the readiness check issues the update of the
    lobby status to 'playing' if and only if this process is host, the
    cached snapshot has at least two members and every member is ready; in
    every other case it issues nothing.  The players handler runs the check
    on the snapshot its refresh has just cached, and the refresh itself
    writes nothing to the store. *)
Theorem checkAllReady_starts_iff
    (s : Session) (lobbyId : string) (resp : Response (list Player)) :
  host_has_lobby s ->
  (start_condition s <->
     exists l, currentLobby s = Some l /\
               trace (checkAllReady s) = [UpdateLobbyStatus (lobby_id l) "playing"]) /\
  (~ start_condition s <-> trace (checkAllReady s) = []) /\
  trace (playersChanged lobbyId resp s) =
    trace (refreshPlayers lobbyId resp s) ++ trace (checkAllReady (refreshed resp s)) /\
  (forall e, In e (trace (refreshPlayers lobbyId resp s)) ->
     e = SelectPlayers lobbyId \/ exists ps, e = OnPlayersUpdate ps).
Proof.
  intros Inv. rewrite <- starts_spec.
  split; [|split; [|split]].
  - split.
    + intros Hs.
      assert (Hh : isHost s = true).
      { apply starts_spec in Hs. apply Hs. }
      destruct (currentLobby s) as [l|] eqn:Hl; [|exfalso; apply (Inv Hh); exact Hl].
      exists l. split; [reflexivity|].
      rewrite (checkAllReady_run s l Hl), Hs. reflexivity.
    + intros (l & Hl & Ht). rewrite (checkAllReady_run s l Hl) in Ht. cbn [trace] in Ht.
      destruct (starts s); [reflexivity | discriminate Ht].
  - destruct (starts s) eqn:Hs.
    + assert (Hh : isHost s = true).
      { apply starts_spec in Hs. apply Hs. }
      destruct (currentLobby s) as [l|] eqn:Hl; [|exfalso; apply (Inv Hh); exact Hl].
      rewrite (checkAllReady_run s l Hl), Hs. cbn [trace].
      split; [intros H; exfalso; apply H; reflexivity | intros H; discriminate H].
    + split; [intros _ | intros _ H; discriminate H].
      unfold starts in Hs. unfold checkAllReady, bind, read. cbn [completion final trace].
      rewrite Nat.ltb_antisym.
      destruct (isHost s); cbn [negb orb andb] in *; [|reflexivity].
      destruct (2 <=? List.length (lobbyPlayers s))%nat; cbn [negb andb] in *; [|reflexivity].
      rewrite Hs. reflexivity.
  - unfold playersChanged, bind.
    destruct (refreshPlayers_final lobbyId resp s) as [Hf Hc].
    rewrite Hc, Hf. reflexivity.
  - destruct resp; simpl; intros e He.
    + destruct He as [He|[He|[]]]; subst; [left; reflexivity | right; eauto].
    + destruct He as [He|[]]; subst. left; reflexivity.
Qed.

Lemma checkAllReady_starts_iff_witness :
  host_has_lobby host_ready /\
  exists l, currentLobby host_ready = Some l /\
            trace (checkAllReady host_ready) = [UpdateLobbyStatus (lobby_id l) "playing"].
Proof.
  assert (Inv : host_has_lobby host_ready) by (intros _ H; discriminate H).
  split; [exact Inv|].
  apply (checkAllReady_starts_iff host_ready "L1" (Ok both_ready) Inv).
  repeat split; simpl; auto.
  repeat constructor.
Defined.

(** ** Re-checks and re-deliveries *)

Example host_playing_status :
  option_map lobby_status (currentLobby host_playing) = Some "playing".
Proof. reflexivity. Qed.

(** C2 fails: the host that has seen 'playing' and re-checks on the next
    membership notification issues the update again. *)
Lemma checkAllReady_rewrites_when_playing :
  ~ no_write_once_playing host_playing /\
  trace (playersChanged "L1" (Ok both_ready) host_playing) =
    [SelectPlayers "L1"; OnPlayersUpdate both_ready; UpdateLobbyStatus "L1" "playing"].
Proof.
  split; [|reflexivity].
  intros H. specialize (H lobby1_playing eq_refl eq_refl). discriminate H.
Qed.

(** C2 (amended): [checkAllReady] never reads the status of the current
    lobby.  Its run is the same whatever that status is, so a check made
    while the lobby is already 'playing' issues the same update again
    exactly when the process is host, has at least two members cached and
    all of them are ready, and nothing otherwise. *)
Theorem checkAllReady_status_blind (s : Session) (l : Lobby) (status : string) :
  currentLobby s = Some l ->
  let s' := set_currentLobby (Some (with_status status l)) s in
  trace (checkAllReady s') = trace (checkAllReady s) /\
  (start_condition s' <->
     trace (checkAllReady s') = [UpdateLobbyStatus (lobby_id l) "playing"]) /\
  (~ start_condition s' <-> trace (checkAllReady s') = []).
Proof.
  intros Hl s'.
  assert (Hl' : currentLobby s' = Some (with_status status l)) by reflexivity.
  rewrite (checkAllReady_run s' _ Hl'), (checkAllReady_run s l Hl).
  cbn [trace]. rewrite <- starts_spec.
  change (starts s') with (starts s).
  change (lobby_id (with_status status l)) with (lobby_id l).
  repeat split.
  - intros H. rewrite H. reflexivity.
  - destruct (starts s); [reflexivity | discriminate].
  - destruct (starts s); [intros H; exfalso; apply H; reflexivity | reflexivity].
  - destruct (starts s); [discriminate | intros _ H; discriminate H].
Qed.

Lemma checkAllReady_status_blind_witness :
  trace (checkAllReady (set_currentLobby (Some (with_status "playing" lobby1)) host_ready))
  = trace (checkAllReady host_ready).
Proof.
  exact (proj1 (@checkAllReady_status_blind host_ready lobby1 "playing" eq_refl)).
Defined.

Lemma game_starts_app (t u : list Event) :
  game_starts (t ++ u) = game_starts t + game_starts u.
Proof. unfold game_starts. rewrite filter_app, length_app. reflexivity. Qed.

Lemma lobbyChanged_run (p : LobbyChange) (s : Session) :
  lobbyChanged p s =
    match new_row p with
    | Some row =>
        mkRun (Returns tt) (set_currentLobby (Some row) s)
          (OnLobbyUpdate (Some row)
             :: if String.eqb (lobby_status row) "playing" then [OnGameStart] else [])
    | None => mkRun (Returns tt) s []
    end.
Proof.
  unfold lobbyChanged. destruct (new_row p) as [row|]; [|reflexivity].
  unfold bind, modify, read, emit. cbn [completion final trace].
  destruct (String.eqb (lobby_status row) "playing"); reflexivity.
Qed.

Lemma lobbyChanged_game_starts (p : LobbyChange) (s : Session) :
  completion (lobbyChanged p s) = Returns tt /\
  game_starts (trace (lobbyChanged p s)) = if says_playing p then 1 else 0.
Proof.
  rewrite lobbyChanged_run. unfold says_playing.
  destruct (new_row p) as [row|]; [|split; reflexivity].
  destruct (String.eqb (lobby_status row) "playing"); split; reflexivity.
Qed.

(** C3 fails: the same notification delivered twice calls [onGameStart]
    twice. *)
Lemma redelivery_restarts :
  ~ game_starts (trace (deliver [now_playing; now_playing] guest_waiting)) <= 1.
Proof.
  change (game_starts (trace (deliver [now_playing; now_playing] guest_waiting))) with 2.
  lia.
Qed.

(** C3 (amended): the lobby handler keeps no record of a start already
    announced.  Every delivered notification whose new row has status
    'playing' calls [onGameStart] once, so the number of calls equals the
    number of such deliveries, re-deliveries included. *)
Theorem game_starts_per_delivery (payloads : list LobbyChange) (s : Session) :
  completion (deliver payloads s) = Returns tt /\
  game_starts (trace (deliver payloads s)) = List.length (filter says_playing payloads).
Proof.
  revert s; induction payloads as [|p rest IH]; intros s.
  - split; reflexivity.
  - cbn [deliver]. unfold bind.
    destruct (lobbyChanged_game_starts p s) as [Hc Hn].
    rewrite Hc. cbn [completion trace].
    destruct (IH (final (lobbyChanged p s))) as [Hc' Hn'].
    split; [exact Hc'|].
    rewrite game_starts_app, Hn, Hn'. cbn [filter].
    destruct (says_playing p); reflexivity.
Qed.

(** ** Leaving *)

Lemma unsubscribe_run (s : Session) :
  unsubscribe s =
    mkRun (Returns tt)
      (set_playersSubscription None (set_lobbySubscription None s))
      (removal (lobbySubscription s) ++ removal (playersSubscription s)).
Proof.
  destruct s as [cur ps [l|] [p|] h]; reflexivity.
Qed.

Lemma leaveLobby_run (playerId : string) (s : Session) (l : Lobby) :
  currentLobby s = Some l ->
  falsy_str playerId = false ->
  leaveLobby playerId s =
    mkRun (Returns tt) initial
      (DeletePlayer (lobby_id l) playerId
         :: (if isHost s then [DeleteLobby (lobby_id l)] else [])
         ++ removal (lobbySubscription s) ++ removal (playersSubscription s)
         ++ [OnLobbyUpdate None; OnPlayersUpdate []]).
Proof.
  intros Hl Hp. destruct s as [cur ps ls pls h]. simpl in Hl. subst cur.
  unfold leaveLobby, bind, read. cbn [completion final trace currentLobby].
  rewrite Hp. cbn [emit completion final trace isHost currentLobby].
  destruct h, ls, pls; reflexivity.
Qed.

Lemma leaveLobby_guard (playerId : string) (s : Session) :
  currentLobby s = None \/ falsy_str playerId = true ->
  leaveLobby playerId s = mkRun (Returns tt) s [].
Proof.
  intros H. unfold leaveLobby, bind, read. cbn [completion final trace].
  destruct (currentLobby s) as [l|]; [|reflexivity].
  destruct H as [H|H]; [discriminate H|].
  rewrite H. reflexivity.
Qed.

Lemma truthy_has_props (v : jsval) (k : string) :
  truthy v = true -> get_prop v k <> None.
Proof. destruct v; simpl; intros H; discriminate. Qed.

(** On a notification that carries a row the typed handler and the raw one
    agree, and on one that carries null both do nothing. *)
Lemma lobbyChanged_raw_agrees (op : ChangeOp) (row : Lobby) (s : Session) :
  calls (lobbyChanged_raw (object_of_lobby row))
    = consumer_calls (trace (lobbyChanged (mkLobbyChange op (Some row)) s)) /\
  assigned (lobbyChanged_raw (object_of_lobby row)) = Some (object_of_lobby row) /\
  currentLobby (final (lobbyChanged (mkLobbyChange op (Some row)) s)) = Some row /\
  lobbyChanged_raw JNull = mkHandlerRun None [] /\
  lobbyChanged (mkLobbyChange op None) s = mkRun (Returns tt) s [].
Proof.
  rewrite lobbyChanged_run. unfold lobbyChanged_raw.
  cbn [truthy object_of_lobby get_prop lookup_field String.eqb Ascii.eqb Bool.eqb
       new_row trace final currentLobby set_currentLobby strict_neq_str].
  destruct (String.eqb (lobby_status row) "playing"); repeat split.
Qed.

(** C4 fails: the host has left and the lobby row is deleted.  The delete
    notification reaches the guest with the empty object as [payload.new]:
    the handler makes it the current lobby and passes it, not null, to
    [onLobbyUpdate].  Had it carried null, the handler would have called
    nothing. *)
Lemma guest_not_told_lobby_ended :
  In (DeleteLobby "L1") (trace (leaveLobby "H" host_ready)) /\
  lobbyChanged_raw (JObj []) = mkHandlerRun (Some (JObj [])) [LobbyUpdateCall (JObj [])] /\
  ~ In (LobbyUpdateCall JNull) (calls (lobbyChanged_raw (JObj []))) /\
  ~ In (LobbyUpdateCall JNull) (calls (lobbyChanged_raw JNull)).
Proof.
  split; [|split; [|split]].
  - simpl. auto.
  - reflexivity.
  - intros [H|[]]. discriminate H.
  - intros [].
Qed.

(** C4 (amended): a host that calls [leaveLobby], uninterrupted, while a
    guest remains asks the store to delete its membership row and then the
    lobby row, and tells its own consumer [onLobbyUpdate(null)].  On the
    guest's side the lobby handler never calls [onLobbyUpdate(null)],
    whatever the notification carries: a truthy [payload.new], the empty
    object of a delete notification included, becomes the current lobby and
    is what [onLobbyUpdate] is given; on a falsy one the handler assigns
    nothing and calls nothing. *)
Theorem host_leave_deletes_lobby
    (host : Session) (l : Lobby) (hostId : string) (payload_new : jsval) :
  currentLobby host = Some l ->
  isHost host = true ->
  falsy_str hostId = false ->
  (exists rest,
     trace (leaveLobby hostId host) =
       DeletePlayer (lobby_id l) hostId :: DeleteLobby (lobby_id l) :: rest
     /\ In (OnLobbyUpdate None) rest) /\
  ~ In (LobbyUpdateCall JNull) (calls (lobbyChanged_raw payload_new)) /\
  (truthy payload_new = true ->
     assigned (lobbyChanged_raw payload_new) = Some payload_new /\
     hd_error (calls (lobbyChanged_raw payload_new)) = Some (LobbyUpdateCall payload_new) /\
     forall arg, In (LobbyUpdateCall arg) (calls (lobbyChanged_raw payload_new)) ->
                 arg = payload_new) /\
  (truthy payload_new = false -> lobbyChanged_raw payload_new = mkHandlerRun None []).
Proof.
  intros Hl Hh Hp. split; [|split; [|split]].
  - rewrite (leaveLobby_run hostId host l Hl Hp), Hh. cbn [trace app].
    eexists; split; [reflexivity|].
    rewrite !in_app_iff. right; right; left; reflexivity.
  - unfold lobbyChanged_raw. destruct (truthy payload_new) eqn:Ht; cbn [calls].
    + intros [H|H].
      * injection H as ->. discriminate Ht.
      * destruct (get_prop payload_new "status") as [st|]; [|destruct H].
        destruct (strict_neq_str st "playing"); [destruct H|].
        destruct H as [H|[]]; discriminate H.
    + intros [].
  - intros Ht. unfold lobbyChanged_raw. rewrite Ht. cbn [assigned calls hd_error].
    repeat split. intros arg [H|H].
    + injection H as <-. reflexivity.
    + destruct (get_prop payload_new "status") as [st|]; [|destruct H].
      destruct (strict_neq_str st "playing"); [destruct H|].
      destruct H as [H|[]]; discriminate H.
  - intros Ht. unfold lobbyChanged_raw. rewrite Ht. reflexivity.
Qed.

Lemma host_leave_deletes_lobby_witness :
  ~ In (LobbyUpdateCall JNull) (calls (lobbyChanged_raw (JObj []))) /\
  assigned (lobbyChanged_raw (JObj [])) = Some (JObj []).
Proof.
  destruct (host_leave_deletes_lobby host_ready lobby1 "H" (JObj [])
              eq_refl eq_refl eq_refl) as (_ & Hnull & Htruthy & _).
  split; [exact Hnull | apply (Htruthy eq_refl)].
Defined.

(** C5 fails twice: the broadcast channel opened by
    [listenForOpponentState] is still open after [leaveLobby], and a call
    of [leaveLobby] with an empty participant id clears nothing. *)
Lemma leaveLobby_leaves_things_behind :
  open_channels (trace (host_session "H" initial)) = ["game:L1"] /\
  ~ (session_cleared (final (host_session "H" initial)) /\
     open_channels (trace (host_session "H" initial)) = []) /\
  ~ session_cleared (final (host_session "" initial)).
Proof.
  split; [reflexivity|split].
  - intros [_ H]. discriminate H.
  - intros [H _]. discriminate H.
Qed.

(** C5 (amended): a call of [leaveLobby] with a current lobby and a
    non-empty participant id completes with the session context cleared
    (no current lobby, no players, not host) and with both change-feed
    subscriptions released: [removeChannel] is called on each handle held
    and both handles are null afterwards.  A call without a current lobby
    or with an empty participant id returns at once and changes
    nothing. *)
Theorem leaveLobby_clears_session (playerId : string) (s : Session) (l : Lobby) :
  currentLobby s = Some l ->
  (falsy_str playerId = false ->
     completion (leaveLobby playerId s) = Returns tt /\
     session_cleared (final (leaveLobby playerId s)) /\
     lobbySubscription (final (leaveLobby playerId s)) = None /\
     playersSubscription (final (leaveLobby playerId s)) = None /\
     (forall ch, lobbySubscription s = Some ch ->
                 In (RemoveChannel ch) (trace (leaveLobby playerId s))) /\
     (forall ch, playersSubscription s = Some ch ->
                 In (RemoveChannel ch) (trace (leaveLobby playerId s)))) /\
  (falsy_str playerId = true -> leaveLobby playerId s = mkRun (Returns tt) s []) /\
  (forall s0, currentLobby s0 = None -> leaveLobby playerId s0 = mkRun (Returns tt) s0 []).
Proof.
  intros Hl. split; [|split].
  - intros Hp. rewrite (leaveLobby_run playerId s l Hl Hp). cbn [completion final trace].
    repeat split.
    + intros ch Hch. rewrite Hch. right.
      rewrite !in_app_iff. right; left. left; reflexivity.
    + intros ch Hch. rewrite Hch. right.
      rewrite !in_app_iff. right; right; left. left; reflexivity.
  - intros Hp. apply leaveLobby_guard. right; exact Hp.
  - intros s0 H0. apply leaveLobby_guard. left; exact H0.
Qed.

Lemma leaveLobby_clears_session_witness :
  session_cleared (final (leaveLobby "H" host_ready)) /\
  In (RemoveChannel "lobby:L1") (trace (leaveLobby "H" host_ready)) /\
  In (RemoveChannel "lobby_players:L1") (trace (leaveLobby "H" host_ready)).
Proof.
  destruct (@leaveLobby_clears_session "H" host_ready lobby1 eq_refl)
    as [H _].
  destruct (H eq_refl) as (_ & Hc & _ & _ & Hl & Hp).
  split; [exact Hc|split]; [apply Hl | apply Hp]; reflexivity.
Defined.

(** [leaveLobby] removes no channel but those whose handles the session
    holds. *)
Lemma leaveLobby_removes_held_only (playerId ch : string) (s : Session) :
  In (RemoveChannel ch) (trace (leaveLobby playerId s)) ->
  lobbySubscription s = Some ch \/ playersSubscription s = Some ch.
Proof.
  destruct (currentLobby s) as [l|] eqn:Hc.
  - destruct (falsy_str playerId) eqn:Hp.
    + rewrite leaveLobby_guard by (right; exact Hp). intros [].
    + rewrite (leaveLobby_run playerId s l Hc Hp). cbn [trace].
      intros [H|H]; [discriminate H|].
      rewrite !in_app_iff in H.
      destruct H as [H|[H|[H|H]]].
      * destruct (isHost s); [destruct H as [H|[]]; discriminate H | destruct H].
      * destruct (lobbySubscription s) as [x|]; [|destruct H].
        destruct H as [H|[]]. injection H as ->. left; reflexivity.
      * destruct (playersSubscription s) as [x|]; [|destruct H].
        destruct H as [H|[]]. injection H as ->. right; reflexivity.
      * destruct H as [H|[H|[]]]; discriminate H.
  - rewrite leaveLobby_guard by (left; exact Hc). intros [].
Qed.

(** ** Echo suppression *)

Lemma strict_neq_str_spec (v : jsval) (s : string) :
  strict_neq_str v s = true <-> v <> JStr s.
Proof.
  destruct v as [| |b|n|s'|fs]; simpl;
    try (split; [intros _ H; discriminate H | reflexivity]).
  destruct (String.eqb_spec s' s) as [->|Hne]; simpl.
  - split; [discriminate | intros H; exfalso; apply H; reflexivity].
  - split; [intros _ H; injection H as H; exact (Hne H) | reflexivity].
Qed.

(** C7: the broadcast handler forwards the payload to [onOpponentScore] if
    and only if the payload's [playerId] differs from the listener's own
    id.  A payload whose [playerId] is the listener's id is never
    forwarded, whatever else it holds, and nothing but the payload received
    is ever forwarded. *)
Theorem opponentState_forwards_iff (self : string) (msg : Broadcast) (s : Session) :
  (trace (opponentState self msg s) = [OnOpponentScore (msg_payload msg)] <->
     exists sender, get_prop (msg_payload msg) "playerId" = Some sender /\
                    sender <> JStr self) /\
  (get_prop (msg_payload msg) "playerId" = Some (JStr self) ->
     opponentState self msg s = mkRun (Returns tt) s []) /\
  (forall e, In e (trace (opponentState self msg s)) ->
             e = OnOpponentScore (msg_payload msg)).
Proof.
  unfold opponentState.
  destruct (get_prop (msg_payload msg) "playerId") as [sender|] eqn:Hs.
  - destruct (strict_neq_str sender self) eqn:Hn.
    + apply strict_neq_str_spec in Hn. split; [|split].
      * split; [intros _; exists sender; split; [reflexivity | exact Hn] | reflexivity].
      * intros H; injection H as H. contradiction.
      * intros e [He|[]]. symmetry; exact He.
    + assert (Heq : sender = JStr self).
      { destruct sender as [| |b|n|s'|fs]; try discriminate Hn.
        simpl in Hn. apply negb_false_iff, String.eqb_eq in Hn. congruence. }
      split; [|split].
      * split; [intros H; discriminate H|].
        intros (x & Hx & Hne). injection Hx as <-. contradiction.
      * intros _. reflexivity.
      * intros e [].
  - split; [|split].
    + split; [intros H; discriminate H | intros (x & Hx & _); discriminate Hx].
    + intros H; discriminate H.
    + intros e [].
Qed.

Lemma opponentState_forwards_iff_witness :
  opponentState "A" (mkBroadcast (JObj [("score", JNum 12); ("playerId", JStr "A")])) initial
  = mkRun (Returns tt) initial [].
Proof.
  apply (opponentState_forwards_iff "A"
           (mkBroadcast (JObj [("score", JNum 12); ("playerId", JStr "A")])) initial).
  reflexivity.
Defined.

Example own_echo_dropped :
  trace (opponentState "A"
           (mkBroadcast (JObj [("score", JNum 12); ("playerId", JStr "A")])) initial) = [].
Proof. reflexivity. Qed.

Example peer_forwarded :
  trace (opponentState "A" (mkBroadcast (JObj [("playerId", JStr "B")])) initial)
  = [OnOpponentScore (JObj [("playerId", JStr "B")])].
Proof. reflexivity. Qed.

(** ** Failed inserts *)

Lemma joinLobby_run (lobbyId playerId : string) (resp : option StoreError) (s : Session) :
  joinLobby lobbyId playerId resp s =
    mkRun (Returns tt) s
      (InsertPlayer lobbyId playerId false
         :: match resp with
            | Some _ => [ConsoleError "Error joining lobby:"]
            | None => []
            end).
Proof. destruct resp; reflexivity. Qed.

Lemma subscribeToLobby_run (lobbyId : string) (s : Session) :
  subscribeToLobby lobbyId s =
    mkRun (Returns tt)
      (mkSession (currentLobby s) (lobbyPlayers s)
         (Some ("lobby:" ++ lobbyId)%string) (Some ("lobby_players:" ++ lobbyId)%string)
         (isHost s))
      (removal (lobbySubscription s) ++ removal (playersSubscription s)
         ++ [Subscribe ("lobby:" ++ lobbyId)%string;
             Subscribe ("lobby_players:" ++ lobbyId)%string;
             SelectPlayers lobbyId]).
Proof.
  destruct s as [cur ps [l|] [p|] h]; reflexivity.
Qed.

(** C8 fails: the waiting lobby is found, the membership insert is refused,
    and [findOrCreateLobby] still returns the lobby. *)
Lemma findOrCreateLobby_hides_failed_join :
  ~ completion (findOrCreateLobby true "G" "snow" (Ok [lobby1]) (Some UniqueViolation)
                  "0.4fzyo82mvyr" (Failed NetworkFailure) initial) = Returns None.
Proof. intros H. discriminate H. Qed.

(** C8 (amended): when [findOrCreateLobby] finds a waiting lobby and the
    membership insert into it fails, [joinLobby] only writes the error to
    the console.  [findOrCreateLobby] goes on as after a successful insert:
    the lobby becomes the current lobby with is-host false, the feeds are
    subscribed, the consumer is told of the lobby, and the lobby is
    returned to the caller. *)
Theorem findOrCreateLobby_join_failure
    (playerId land : string) (lobby : Lobby) (others : list Lobby) (err : StoreError)
    (r36 : string) (ins : Response Lobby) (s : Session) :
  falsy_str playerId = false ->
  let failed := findOrCreateLobby true playerId land (Ok (lobby :: others)) (Some err) r36 ins s in
  let joined := findOrCreateLobby true playerId land (Ok (lobby :: others)) None r36 ins s in
  completion failed = Returns (Some lobby) /\
  final failed = final joined /\
  currentLobby (final failed) = Some lobby /\
  isHost (final failed) = false /\
  trace failed =
    [SelectWaitingLobbies playerId; InsertPlayer (lobby_id lobby) playerId false;
     ConsoleError "Error joining lobby:"]
    ++ removal (lobbySubscription s) ++ removal (playersSubscription s)
    ++ [Subscribe ("lobby:" ++ lobby_id lobby)%string;
        Subscribe ("lobby_players:" ++ lobby_id lobby)%string;
        SelectPlayers (lobby_id lobby);
        OnLobbyUpdate (Some lobby)].
Proof.
  intros Hp. unfold findOrCreateLobby. rewrite Hp. cbn [negb orb].
  destruct s as [cur ps [l|] [p|] h]; repeat split.
Qed.

Lemma findOrCreateLobby_join_failure_witness :
  completion (findOrCreateLobby true "G" "snow" (Ok [lobby1]) (Some UniqueViolation)
                "0.4fzyo82mvyr" (Failed NetworkFailure) initial) = Returns (Some lobby1).
Proof.
  exact (proj1 (@findOrCreateLobby_join_failure "G" "snow" lobby1 [] UniqueViolation
                  "0.4fzyo82mvyr" (Failed NetworkFailure) initial eq_refl)).
Defined.

(** C9 fails: after a uniqueness violation on the code there is no second
    insert, and the caller gets null. *)
Lemma createLobby_gives_up_on_conflict :
  ~ 2 <= lobby_inserts (trace (createLobby true "H" "snow" "0.4fzyo82mvyr"
                                 (Failed UniqueViolation) None initial)) /\
  completion (createLobby true "H" "snow" "0.4fzyo82mvyr"
                (Failed UniqueViolation) None initial) = Returns None.
Proof.
  split; [|reflexivity].
  change (lobby_inserts _) with 1. lia.
Qed.

(** C9 (amended): when the insert of the lobby row fails, with a
    uniqueness violation on the code or with any other error,
    [createLobby] writes the error to the console and returns null after
    that one insert: no new code is drawn, nothing is retried, and the
    session context is left as it was. *)
Theorem createLobby_insert_failure
    (hostId land r36 : string) (err : StoreError) (joined : option StoreError) (s : Session) :
  falsy_str hostId = false ->
  createLobby true hostId land r36 (Failed err) joined s =
    mkRun (Returns None) s
      [InsertLobby (generateLobbyCode r36) hostId land "waiting";
       ConsoleError "Error creating lobby:"] /\
  lobby_inserts (trace (createLobby true hostId land r36 (Failed err) joined s)) = 1.
Proof.
  intros Hp. unfold createLobby. rewrite Hp. split; reflexivity.
Qed.

Lemma createLobby_insert_failure_witness :
  lobby_inserts (trace (createLobby true "H" "snow" "0.4fzyo82mvyr"
                          (Failed UniqueViolation) None initial)) = 1.
Proof.
  exact (proj2 (@createLobby_insert_failure "H" "snow" "0.4fzyo82mvyr" UniqueViolation
                  None initial eq_refl)).
Defined.

(** ** Toggling readiness *)

Lemma find_first_match (playerId : string) (before after : list Player) (p : Player) :
  (forall q, In q before -> player_id q <> playerId) ->
  player_id p = playerId ->
  find (fun q => String.eqb (player_id q) playerId) (before ++ p :: after) = Some p.
Proof.
  intros Hb Hp. induction before as [|q before IH]; simpl.
  - rewrite Hp, String.eqb_refl. reflexivity.
  - destruct (String.eqb_spec (player_id q) playerId) as [Heq|_].
    + exfalso. apply (Hb q); [left; reflexivity | exact Heq].
    + apply IH. intros q' Hq'. apply Hb. right; exact Hq'.
Qed.

Lemma find_absent (playerId : string) (players : list Player) :
  (forall q, In q players -> player_id q <> playerId) ->
  find (fun q => String.eqb (player_id q) playerId) players = None.
Proof.
  intros Hall. induction players as [|q players IH]; simpl; [reflexivity|].
  destruct (String.eqb_spec (player_id q) playerId) as [Heq|_].
  - exfalso. apply (Hall q); [left; reflexivity | exact Heq].
  - apply IH. intros q' Hq'. apply Hall. right; exact Hq'.
Qed.

Lemma toggleReady_run (playerId : string) (s : Session) (l : Lobby) :
  currentLobby s = Some l ->
  falsy_str playerId = false ->
  toggleReady playerId s =
    let newReady :=
      negb (match find (fun q => String.eqb (player_id q) playerId) (lobbyPlayers s) with
            | Some p => truthy_flag (is_ready p)
            | None => false
            end) in
    mkRun (Returns newReady) s [UpdatePlayerReady (lobby_id l) playerId newReady].
Proof.
  intros Hl Hp. unfold toggleReady, bind, read. cbn [completion final trace].
  rewrite Hl, Hp. reflexivity.
Qed.

(** C10 fails outside the guard of [toggleReady]: without a current lobby,
    or for an empty participant id, a participant with no row in the cached
    snapshot gets no write, and the value returned is false, not true. *)
Lemma toggleReady_absent_not_always_true :
  (forall q, In q (lobbyPlayers initial) -> player_id q <> "X") /\
  toggleReady "X" initial = mkRun (Returns false) initial [] /\
  ~ completion (toggleReady "X" initial) = Returns true /\
  (forall q, In q (lobbyPlayers host_ready) -> player_id q <> "") /\
  ~ completion (toggleReady "" host_ready) = Returns true.
Proof.
  split; [intros q []|].
  split; [reflexivity|].
  split; [intros H; discriminate H|].
  split; [|intros H; discriminate H].
  intros q [<-|[<-|[]]]; discriminate.
Qed.

(** C10 (amended): with a current lobby and a non-empty participant id,
    [toggleReady] issues one update, without reading the store: it writes
    the JavaScript negation of the ready flag of the participant's first
    row in the cached snapshot (false for a true flag, true for a false or
    a null one) and returns the value written; for a participant with no
    row in the cached snapshot the value written and returned is true.
    Without a current lobby, or for an empty participant id, it writes
    nothing and returns false. *)
Theorem toggleReady_negates_cached (playerId : string) (s : Session) :
  (currentLobby s = None \/ falsy_str playerId = true ->
     toggleReady playerId s = mkRun (Returns false) s []) /\
  (forall l, currentLobby s = Some l -> falsy_str playerId = false ->
     (forall before p after,
        lobbyPlayers s = before ++ p :: after ->
        (forall q, In q before -> player_id q <> playerId) ->
        player_id p = playerId ->
        let written := match is_ready p with
                       | Some true => false
                       | Some false => true
                       | None => true
                       end in
        toggleReady playerId s =
          mkRun (Returns written) s [UpdatePlayerReady (lobby_id l) playerId written]) /\
     ((forall q, In q (lobbyPlayers s) -> player_id q <> playerId) ->
        toggleReady playerId s =
          mkRun (Returns true) s [UpdatePlayerReady (lobby_id l) playerId true])).
Proof.
  split.
  - intros H. unfold toggleReady, bind, read. cbn [completion final trace].
    destruct (currentLobby s) as [l|]; [|reflexivity].
    destruct H as [H|H]; [discriminate H|].
    rewrite H. reflexivity.
  - intros l Hl Hp. rewrite (toggleReady_run playerId s l Hl Hp). split.
    + intros before p after Hps Hb Hid.
      rewrite Hps, (find_first_match playerId before after p Hb Hid).
      destruct (is_ready p) as [[|]|]; reflexivity.
    + intros Habs. rewrite (find_absent playerId (lobbyPlayers s) Habs). reflexivity.
Qed.

Lemma toggleReady_negates_cached_witness :
  toggleReady "G" host_ready =
    mkRun (Returns false) host_ready [UpdatePlayerReady "L1" "G" false] /\
  toggleReady "X" host_ready =
    mkRun (Returns true) host_ready [UpdatePlayerReady "L1" "X" true] /\
  toggleReady "N"
    (set_lobbyPlayers [mkPlayer "L1" "N" None] host_ready) =
    mkRun (Returns true) (set_lobbyPlayers [mkPlayer "L1" "N" None] host_ready)
      [UpdatePlayerReady "L1" "N" true] /\
  toggleReady "X" initial = mkRun (Returns false) initial [].
Proof.
  destruct (toggleReady_negates_cached "G" host_ready) as [_ Hg].
  destruct (Hg lobby1 eq_refl eq_refl) as [Hin _].
  destruct (toggleReady_negates_cached "X" host_ready) as [_ Hx].
  destruct (Hx lobby1 eq_refl eq_refl) as [_ Hout].
  destruct (toggleReady_negates_cached "N"
              (set_lobbyPlayers [mkPlayer "L1" "N" None] host_ready)) as [_ Hn].
  destruct (Hn lobby1 eq_refl eq_refl) as [Hnull _].
  destruct (toggleReady_negates_cached "X" initial) as [Hguard _].
  split; [|split; [|split]].
  - apply (Hin [mkPlayer "L1" "H" (Some true)] (mkPlayer "L1" "G" (Some true)) []
             eq_refl); [|reflexivity].
    intros q [<-|[]]. discriminate.
  - apply Hout. intros q [<-|[<-|[]]]; discriminate.
  - apply (Hnull [] (mkPlayer "L1" "N" None) [] eq_refl); [intros q []|reflexivity].
  - apply Hguard. left; reflexivity.
Defined.

(** Outside a lobby, or for an empty participant id, [toggleReady] writes
    nothing and returns false. *)
Lemma toggleReady_guard (playerId : string) (s : Session) :
  currentLobby s = None \/ falsy_str playerId = true ->
  toggleReady playerId s = mkRun (Returns false) s [].
Proof.
  intros H. unfold toggleReady, bind, read. cbn [completion final trace].
  destruct (currentLobby s) as [l|]; [|reflexivity].
  destruct H as [H|H]; [discriminate H|].
  rewrite H. reflexivity.
Qed.

(** ** An invariant of the session *)

Lemma checkAllReady_final (s : Session) : final (checkAllReady s) = s.
Proof.
  unfold checkAllReady, bind, read. cbn [completion final trace].
  destruct (negb (isHost s) || (List.length (lobbyPlayers s) <? 2)%nat); [reflexivity|].
  destruct (forallb _ (lobbyPlayers s)); [|reflexivity].
  cbn [completion final trace]. destruct (currentLobby s); reflexivity.
Qed.

Lemma toggleReady_final (playerId : string) (s : Session) :
  final (toggleReady playerId s) = s.
Proof.
  unfold toggleReady, bind, read. cbn [completion final trace].
  destruct (currentLobby s); [destruct (falsy_str playerId)|]; reflexivity.
Qed.

Lemma broadcastGameState_final (state : jsval) (s : Session) :
  final (broadcastGameState state s) = s.
Proof.
  unfold broadcastGameState, bind, read. cbn [completion final trace].
  destruct (currentLobby s); reflexivity.
Qed.

(** [listenForOpponentState] stores nothing: the session holds no handle of
    the broadcast channel it opens. *)
Lemma listenForOpponentState_final (playerId : string) (s : Session) :
  final (listenForOpponentState playerId s) = s.
Proof.
  unfold listenForOpponentState, bind, read. cbn [completion final trace].
  destruct (currentLobby s); reflexivity.
Qed.

Lemma discard_final {A} (m : M A) (s : Session) :
  final (discard m s) = final (m s).
Proof.
  unfold discard, bind. destruct (completion (m s)); reflexivity.
Qed.

Lemma perform_keeps_host_has_lobby (client : bool) (c : Call) (s : Session) :
  host_has_lobby s -> host_has_lobby (final (perform client c s)).
Proof.
  unfold host_has_lobby. intros Inv.
  destruct c; cbn [perform].
  - (* createLobby *)
    unfold discard, createLobby.
    destruct (negb client || falsy_str hostId); [exact Inv|].
    destruct ins as [data|err]; [|exact Inv].
    destruct s as [cur ps [l|] [p|] h], joined; intros _; discriminate.
  - (* findOrCreateLobby *)
    unfold discard, findOrCreateLobby, createLobby.
    destruct (negb client || falsy_str playerId); [exact Inv|].
    destruct found as [[|lobby others]|err].
    + destruct ins as [data|err]; [|exact Inv].
      destruct s as [cur ps [l|] [p|] h], joined; intros _; discriminate.
    + destruct s as [cur ps [l|] [p|] h], joined; intros _; discriminate.
    + destruct ins as [data|err']; [|exact Inv].
      destruct s as [cur ps [l|] [p|] h], joined; intros _; discriminate.
  - (* joinByCode *)
    unfold discard, joinByCode.
    destruct (negb client || falsy_str playerId); [exact Inv|].
    destruct found as [lobby|err]; [|exact Inv].
    destruct s as [cur ps [l|] [p|] h], joined; intros _; discriminate.
  - (* toggleReady *)
    rewrite discard_final, toggleReady_final. exact Inv.
  - (* leaveLobby *)
    destruct (currentLobby s) as [l|] eqn:Hc.
    + destruct (falsy_str playerId) eqn:Hp.
      * rewrite leaveLobby_guard by (right; exact Hp). cbn [final].
        rewrite Hc. exact Inv.
      * rewrite (leaveLobby_run playerId s l Hc Hp). intros H; discriminate H.
    + rewrite leaveLobby_guard by (left; exact Hc). cbn [final].
      rewrite Hc. exact Inv.
  - (* broadcastGameState *)
    rewrite broadcastGameState_final. exact Inv.
  - (* listenForOpponentState *)
    rewrite listenForOpponentState_final. exact Inv.
  - (* unsubscribe *)
    rewrite unsubscribe_run. exact Inv.
  - (* lobbyChanged *)
    rewrite lobbyChanged_run. destruct (new_row payload); [|exact Inv].
    intros _; discriminate.
  - (* playersChanged *)
    unfold playersChanged, bind.
    destruct (refreshPlayers_final lobbyId resp s) as [Hf Hc].
    rewrite Hc. cbn [final]. rewrite Hf, checkAllReady_final.
    destruct resp; exact Inv.
  - (* the first snapshot *)
    destruct resp; exact Inv.
  - (* opponentState *)
    unfold opponentState.
    destruct (get_prop (msg_payload payload) "playerId") as [sender|]; [|exact Inv].
    destruct (strict_neq_str sender self); exact Inv.
Qed.

(** In every session the service can be in, a host has a current lobby. *)
Lemma reachable_host_has_lobby (client : bool) (s : Session) :
  reachable client s -> host_has_lobby s.
Proof.
  induction 1 as [|s c Hs IH].
  - intros H; discriminate H.
  - apply perform_keeps_host_has_lobby, IH.
Qed.

(** So the readiness check never fails on [currentLobby.id]. *)
Lemma reachable_checkAllReady_returns (client : bool) (s : Session) :
  reachable client s -> completion (checkAllReady s) = Returns tt.
Proof.
  intros Hr. pose proof (reachable_host_has_lobby client s Hr) as Inv.
  unfold host_has_lobby in Inv.
  unfold checkAllReady, bind, read. cbn [completion final trace].
  destruct (isHost s); cbn [negb orb]; [|reflexivity].
  destruct (List.length (lobbyPlayers s) <? 2)%nat; [reflexivity|].
  destruct (forallb _ (lobbyPlayers s)); [|reflexivity].
  cbn [completion final trace].
  destruct (currentLobby s); [reflexivity|].
  exfalso. apply Inv; reflexivity.
Qed.

(** ** Entering a lobby *)

Lemma upper_ascii_idempotent (c : ascii) :
  upper_ascii (upper_ascii c) = upper_ascii c.
Proof. destruct c as [[] [] [] [] [] [] [] []]; reflexivity. Qed.

Lemma toUpperCase_idempotent (s : string) :
  toUpperCase (toUpperCase s) = toUpperCase s.
Proof.
  induction s as [|c s IH]; simpl; [reflexivity|].
  rewrite upper_ascii_idempotent, IH. reflexivity.
Qed.


(** The code [createLobby] stores is the code [joinByCode] looks up when
    given it back: generated codes are not changed by the normalisation of
    [joinByCode]. *)
Theorem created_code_is_looked_up
    (hostId land r36 playerId : string) (ins found : Response Lobby)
    (joined joined' : option StoreError) (s s' : Session) :
  falsy_str hostId = false ->
  falsy_str playerId = false ->
  exists code,
    hd_error (trace (createLobby true hostId land r36 ins joined s))
      = Some (InsertLobby code hostId land "waiting") /\
    hd_error (trace (joinByCode true code playerId found joined' s'))
      = Some (SelectLobbyByCode code).
Proof.
  intros Hh Hp. exists (generateLobbyCode r36). split.
  - unfold createLobby. rewrite Hh. cbn [negb orb].
    destruct ins; reflexivity.
  - unfold joinByCode. rewrite Hp. cbn [negb orb].
    unfold generateLobbyCode. rewrite toUpperCase_idempotent.
    destruct found; reflexivity.
Qed.

Lemma created_code_is_looked_up_witness :
  exists code,
    hd_error (trace (createLobby true "H" "snow" "0.4fzyo82mvyr" (Ok lobby1) None initial))
      = Some (InsertLobby code "H" "snow" "waiting") /\
    hd_error (trace (joinByCode true code "G" (Ok lobby1) None initial))
      = Some (SelectLobbyByCode code).
Proof.
  exact (created_code_is_looked_up "H" "snow" "0.4fzyo82mvyr" "G" (Ok lobby1) (Ok lobby1)
           None None initial initial eq_refl eq_refl).
Defined.

(** Without a client, or for an empty participant id, the three ways into
    a lobby return null at once: nothing is asked of the store, no consumer
    is called and the session is untouched. *)
Theorem entry_guards
    (client : bool) (playerId land code r36 : string) (ins foundOne : Response Lobby)
    (found : Response (list Lobby)) (joined : option StoreError) (s : Session) :
  client = false \/ falsy_str playerId = true ->
  createLobby client playerId land r36 ins joined s = mkRun (Returns None) s [] /\
  findOrCreateLobby client playerId land found joined r36 ins s = mkRun (Returns None) s [] /\
  joinByCode client code playerId foundOne joined s = mkRun (Returns None) s [].
Proof.
  intros H.
  assert (Hg : negb client || falsy_str playerId = true).
  { destruct H as [-> | ->]; [reflexivity | apply orb_true_r]. }
  unfold createLobby, findOrCreateLobby, joinByCode. rewrite Hg.
  repeat split.
Qed.

Lemma entry_guards_witness :
  joinByCode true "4fzyo8" "" (Ok lobby1) None host_ready = mkRun (Returns None) host_ready [].
Proof.
  apply (entry_guards true "" "snow" "4fzyo8" "0.4fzyo82mvyr" (Ok lobby1) (Ok lobby1)
           (Ok [lobby1]) None host_ready).
  right; reflexivity.
Defined.

(** When no lobby matches the code, or the lookup fails, [joinByCode]
    reports it on the console and returns null: no membership is inserted,
    no channel is opened, no consumer is called and the session is
    untouched. *)
Theorem joinByCode_not_found
    (code playerId : string) (err : StoreError) (joined : option StoreError) (s : Session) :
  falsy_str playerId = false ->
  joinByCode true code playerId (Failed err) joined s =
    mkRun (Returns None) s
      [SelectLobbyByCode (toUpperCase code); ConsoleError "Lobby not found:"].
Proof.
  intros Hp. unfold joinByCode. rewrite Hp. reflexivity.
Qed.

Lemma joinByCode_not_found_witness :
  final (joinByCode true "zzzzzz" "G" (Failed RowNotFound) None initial) = initial.
Proof.
  rewrite (joinByCode_not_found "zzzzzz" "G" RowNotFound None initial eq_refl).
  reflexivity.
Defined.

(** [findOrCreateLobby] treats a failed search like an empty one: in both
    cases it goes on exactly as [createLobby] called with the same
    arguments, after the one select. *)
Theorem findOrCreateLobby_falls_back
    (playerId land r36 : string) (found : Response (list Lobby))
    (ins : Response Lobby) (joined : option StoreError) (s : Session) :
  falsy_str playerId = false ->
  found = Ok [] \/ (exists err, found = Failed err) ->
  let created := createLobby true playerId land r36 ins joined s in
  let r := findOrCreateLobby true playerId land found joined r36 ins s in
  completion r = completion created /\
  final r = final created /\
  trace r = SelectWaitingLobbies playerId :: trace created.
Proof.
  intros Hp Hf. unfold findOrCreateLobby. rewrite Hp. cbn [negb orb].
  destruct Hf as [-> | [err ->]]; unfold bind at 1; cbn [emit completion final trace];
    destruct (completion (createLobby true playerId land r36 ins joined s));
    repeat split.
Qed.

Lemma findOrCreateLobby_falls_back_witness :
  completion (findOrCreateLobby true "H" "snow" (Failed NetworkFailure) None
                "0.4fzyo82mvyr" (Ok lobby1) initial)
  = completion (createLobby true "H" "snow" "0.4fzyo82mvyr" (Ok lobby1) None initial).
Proof.
  apply (findOrCreateLobby_falls_back "H" "snow" "0.4fzyo82mvyr" (Failed NetworkFailure)
           (Ok lobby1) None initial eq_refl).
  right. exists NetworkFailure. reflexivity.
Defined.

Lemma bind_assoc {A B C} (m : M A) (f : A -> M B) (g : B -> M C) (s : Session) :
  bind (bind m f) g s = bind m (fun x => bind (f x) g) s.
Proof.
  unfold bind. destruct (completion (m s)) as [x|]; cbn [completion final trace];
    [|reflexivity].
  destruct (completion (f x (final (m s)))) as [y|]; cbn [completion final trace];
    [|reflexivity].
  rewrite app_assoc. reflexivity.
Qed.

(** The methods are their segments put end to end. *)
Lemma methods_are_their_segments
    (client : bool) (id land code r36 : string) (ins foundOne : Response Lobby)
    (found : Response (list Lobby)) (joined : option StoreError)
    (resp : Response (list Player)) (s : Session) :
  createLobby client id land r36 ins joined s
    = createLobby_uninterrupted client id land r36 ins joined s /\
  joinByCode client code id foundOne joined s
    = joinByCode_uninterrupted client code id foundOne joined s /\
  findOrCreateLobby client id land found joined r36 ins s
    = findOrCreateLobby_uninterrupted client id land found joined r36 ins s /\
  leaveLobby id s = leaveLobby_uninterrupted id s /\
  playersChanged code resp s = playersChanged_uninterrupted code resp s.
Proof.
  split; [|split; [|split; [|split]]].
  - unfold createLobby, createLobby_uninterrupted, createLobby_call.
    destruct client, (falsy_str id), ins as [data|err]; try reflexivity;
      destruct s as [cur ps [l|] [p|] h], joined; reflexivity.
  - unfold joinByCode, joinByCode_uninterrupted, joinByCode_call.
    destruct client, (falsy_str id), foundOne as [lobby|err]; try reflexivity;
      destruct s as [cur ps [l|] [p|] h], joined; reflexivity.
  - unfold findOrCreateLobby, findOrCreateLobby_uninterrupted, findOrCreateLobby_call,
      findOrCreateLobby_found, createLobby, createLobby_call.
    destruct client, (falsy_str id), found as [[|lobby others]|err], ins as [data|err'];
      try reflexivity;
      destruct s as [cur ps [l|] [p|] h], joined; reflexivity.
  - unfold leaveLobby, leaveLobby_uninterrupted, leaveLobby_call, leaveLobby_left,
      leaveLobby_clear.
    destruct s as [[cur|] ps [l|] [p|] [|]], (falsy_str id); reflexivity.
  - unfold playersChanged, playersChanged_uninterrupted, playersChanged_resume,
      refreshPlayers.
    apply bind_assoc.
Qed.

Lemma entered_run (lobby : Lobby) (joined : option StoreError) (s : Session) :
  entered lobby joined s =
    mkRun (Returns (Some lobby))
      (mkSession (currentLobby s) (lobbyPlayers s)
         (Some ("lobby:" ++ lobby_id lobby)%string)
         (Some ("lobby_players:" ++ lobby_id lobby)%string) (isHost s))
      (match joined with
       | Some _ => [ConsoleError "Error joining lobby:"]
       | None => []
       end
       ++ removal (lobbySubscription s) ++ removal (playersSubscription s)
       ++ [Subscribe ("lobby:" ++ lobby_id lobby)%string;
           Subscribe ("lobby_players:" ++ lobby_id lobby)%string;
           SelectPlayers (lobby_id lobby);
           OnLobbyUpdate (currentLobby s)]).
Proof.
  destruct s as [cur ps [l|] [p|] h], joined; reflexivity.
Qed.

(** [createLobby] across its awaits.  Resumed with the stored row after
    the lobby insert, in whatever session, it makes that row the current
    lobby and the caller host, and issues the not-ready membership insert.
    Resumed after the membership insert, failed or not and in whatever
    session the steps run meanwhile have left, it holds the handles of the
    row's two feeds, passes the lobby current at that moment to
    [onLobbyUpdate], returns the row and leaves current lobby, role and
    players as it found them.  So when nothing else runs while it is
    suspended, [getLobby] gives the row and [isLobbyHost] is true at its
    return; and when a [leaveLobby] has run to its end during the membership
    insert, it still returns the row and holds the two handles, with no
    current lobby and the caller not host. *)
Theorem createLobby_makes_host
    (hostId land r36 : string) (data : Lobby) (joined : option StoreError)
    (s s' : Session) :
  createLobby_inserted hostId (Ok data) s =
    mkRun (Returns (AwaitJoin data)) (set_isHost true (set_currentLobby (Some data) s))
      [InsertPlayer (lobby_id data) hostId false] /\
  (completion (entered data joined s') = Returns (Some data) /\
   held (final (entered data joined s')) =
     [("lobby:" ++ lobby_id data)%string; ("lobby_players:" ++ lobby_id data)%string] /\
   currentLobby (final (entered data joined s')) = currentLobby s' /\
   isHost (final (entered data joined s')) = isHost s' /\
   lobbyPlayers (final (entered data joined s')) = lobbyPlayers s' /\
   In (OnLobbyUpdate (currentLobby s')) (trace (entered data joined s')) /\
   final (entered data joined s') = final (entered data None s')) /\
  (falsy_str hostId = false ->
   let r := createLobby_uninterrupted true hostId land r36 (Ok data) joined s in
   completion r = Returns (Some data) /\
   completion (getLobby (final r)) = Returns (Some data) /\
   completion (isLobbyHost (final r)) = Returns true /\
   completion (getPlayers (final r)) = Returns (lobbyPlayers s)) /\
  (forall l playerId,
     currentLobby s' = Some l -> falsy_str playerId = false ->
     let r := entered data joined (final (leaveLobby_uninterrupted playerId s')) in
     completion r = Returns (Some data) /\
     completion (getLobby (final r)) = Returns None /\
     completion (isLobbyHost (final r)) = Returns false /\
     held (final r) =
       [("lobby:" ++ lobby_id data)%string; ("lobby_players:" ++ lobby_id data)%string]).
Proof.
  split; [reflexivity|]. split; [|split].
  - rewrite !entered_run. cbn [completion final trace held lobbySubscription
      playersSubscription currentLobby isHost lobbyPlayers app].
    repeat split. rewrite !in_app_iff. right; right; right. simpl; auto.
  - intros Hh. unfold createLobby_uninterrupted, createLobby_call. rewrite Hh.
    destruct s as [cur ps [l|] [p|] h], joined; repeat split.
  - intros l playerId Hl Hp.
    destruct (methods_are_their_segments true playerId "" "" "" (Ok data) (Ok data)
                (Ok []) None (Ok []) s') as (_ & _ & _ & <- & _).
    rewrite (leaveLobby_run playerId s' l Hl Hp). cbn [final].
    rewrite entered_run. repeat split.
Qed.

Lemma createLobby_makes_host_witness :
  completion (isLobbyHost
                (final (createLobby_uninterrupted true "H" "snow" "0.4fzyo82mvyr"
                          (Ok lobby1) (Some PermissionDenied) initial)))
    = Returns true /\
  completion (getLobby
                (final (entered lobby1 None
                          (final (leaveLobby_uninterrupted "H" host_ready)))))
    = Returns None.
Proof.
  destruct (createLobby_makes_host "H" "snow" "0.4fzyo82mvyr" lobby1
              (Some PermissionDenied) initial host_ready) as (_ & _ & Hrun & _).
  destruct (createLobby_makes_host "H" "snow" "0.4fzyo82mvyr" lobby1
              None initial host_ready) as (_ & _ & _ & Hleave).
  split.
  - apply (Hrun eq_refl).
  - apply (Hleave lobby1 "H" eq_refl eq_refl).
Defined.

(** [joinByCode] across its awaits.  Resumed with the lobby found, in
    whatever session, it makes that lobby the current one and the caller
    not host, even a caller who was host before, and issues the not-ready
    membership insert.  Resumed after the membership insert, failed or not
    and in whatever session the steps run meanwhile have left, it holds the
    handles of the lobby's two feeds, passes the lobby current at that
    moment to [onLobbyUpdate], returns the lobby found and leaves current
    lobby and role as it found them.  So when nothing else runs while it is
    suspended, [getLobby] gives the lobby found, [isLobbyHost] is false and
    [onLobbyUpdate] gets that lobby. *)
Theorem joinByCode_makes_guest
    (code playerId : string) (lobby : Lobby) (joined : option StoreError)
    (s s' : Session) :
  joinByCode_found playerId (Ok lobby) s =
    mkRun (Returns (AwaitJoin lobby)) (set_isHost false (set_currentLobby (Some lobby) s))
      [InsertPlayer (lobby_id lobby) playerId false] /\
  (completion (entered lobby joined s') = Returns (Some lobby) /\
   held (final (entered lobby joined s')) =
     [("lobby:" ++ lobby_id lobby)%string; ("lobby_players:" ++ lobby_id lobby)%string] /\
   currentLobby (final (entered lobby joined s')) = currentLobby s' /\
   isHost (final (entered lobby joined s')) = isHost s' /\
   In (OnLobbyUpdate (currentLobby s')) (trace (entered lobby joined s')) /\
   final (entered lobby joined s') = final (entered lobby None s')) /\
  (falsy_str playerId = false ->
   let r := joinByCode_uninterrupted true code playerId (Ok lobby) joined s in
   completion r = Returns (Some lobby) /\
   completion (getLobby (final r)) = Returns (Some lobby) /\
   completion (isLobbyHost (final r)) = Returns false /\
   In (OnLobbyUpdate (Some lobby)) (trace r)).
Proof.
  split; [reflexivity|]. split.
  - rewrite !entered_run. cbn [completion final trace held lobbySubscription
      playersSubscription currentLobby isHost lobbyPlayers app].
    repeat split. rewrite !in_app_iff. right; right; right. simpl; auto.
  - intros Hp. unfold joinByCode_uninterrupted, joinByCode_call. rewrite Hp.
    destruct s as [cur ps [l|] [p|] h], joined; repeat split; simpl; auto 10.
Qed.

Lemma joinByCode_makes_guest_witness :
  completion (isLobbyHost
                (final (joinByCode_uninterrupted true "4fzyo8" "G" (Ok lobby1) None
                          host_ready)))
  = Returns false.
Proof.
  destruct (joinByCode_makes_guest "4fzyo8" "G" lobby1 None host_ready initial)
    as (_ & _ & Hrun).
  apply (Hrun eq_refl).
Defined.


(** ** Subscriptions *)

(** [unsubscribe] is idempotent and touches nothing but the two handles:
    after it no handle is held, and a second call removes nothing. *)
Theorem unsubscribe_idempotent (s : Session) :
  held (final (unsubscribe s)) = [] /\
  unsubscribe (final (unsubscribe s)) = mkRun (Returns tt) (final (unsubscribe s)) [] /\
  currentLobby (final (unsubscribe s)) = currentLobby s /\
  lobbyPlayers (final (unsubscribe s)) = lobbyPlayers s /\
  isHost (final (unsubscribe s)) = isHost s.
Proof.
  destruct s as [cur ps [l|] [p|] h]; repeat split.
Qed.

(** ** The cached snapshot *)

(** A failed refresh keeps the snapshot cached before and calls no
    consumer.  A successful one replaces the snapshot by the rows read and
    hands exactly those to [onPlayersUpdate], so after two answers the
    session is the one the second answer alone would give. *)
Theorem refreshPlayers_last_answer_wins
    (lobbyId : string) (first second : list Player) (err : StoreError) (s : Session) :
  refreshPlayers lobbyId (Failed err) s = mkRun (Returns tt) s [SelectPlayers lobbyId] /\
  trace (refreshPlayers lobbyId (Ok second) s)
    = [SelectPlayers lobbyId; OnPlayersUpdate second] /\
  lobbyPlayers (final (refreshPlayers lobbyId (Ok second) s)) = second /\
  final (refreshPlayers lobbyId (Ok second) (final (refreshPlayers lobbyId (Ok first) s)))
    = final (refreshPlayers lobbyId (Ok second) s).
Proof. repeat split. Qed.

(** An answer of a refresh that arrives after [leaveLobby] is still
    applied: the players list, emptied by [leaveLobby], is filled again and
    handed to [onPlayersUpdate] although there is no current lobby. *)
Theorem late_refresh_after_leave
    (playerId : string) (s : Session) (l : Lobby) (data : list Player) :
  currentLobby s = Some l ->
  falsy_str playerId = false ->
  let left := final (leaveLobby playerId s) in
  let r := refreshPlayers_resume (Ok data) left in
  lobbyPlayers left = [] /\
  currentLobby (final r) = None /\
  lobbyPlayers (final r) = data /\
  trace r = [OnPlayersUpdate data].
Proof.
  intros Hl Hp. rewrite (leaveLobby_run playerId s l Hl Hp). repeat split.
Qed.

Lemma late_refresh_after_leave_witness :
  lobbyPlayers (final (refreshPlayers_resume (Ok both_ready)
                         (final (leaveLobby "H" host_ready)))) = both_ready.
Proof.
  apply (late_refresh_after_leave "H" host_ready lobby1 both_ready eq_refl eq_refl).
Defined.

(** [toggleReady] does not touch the cached snapshot: called twice with no
    refresh in between, it writes and returns the same value twice. *)
Theorem toggleReady_repeats_without_refresh (playerId : string) (s : Session) :
  final (toggleReady playerId s) = s /\
  toggleReady playerId (final (toggleReady playerId s)) = toggleReady playerId s.
Proof.
  rewrite toggleReady_final. split; reflexivity.
Qed.

(** Once a refresh has cached the participant's row with the flag [v],
    whatever was cached before, the next [toggleReady] writes and returns
    the negation of [v]. *)
Theorem toggleReady_after_refresh
    (playerId lobbyId : string) (s : Session) (l : Lobby)
    (data : list Player) (p : Player) (v : bool) :
  currentLobby s = Some l ->
  falsy_str playerId = false ->
  find (fun q => String.eqb (player_id q) playerId) data = Some p ->
  is_ready p = Some v ->
  let s' := final (refreshPlayers lobbyId (Ok data) s) in
  toggleReady playerId s' =
    mkRun (Returns (negb v)) s' [UpdatePlayerReady (lobby_id l) playerId (negb v)].
Proof.
  intros Hl Hp Hf Hv s'.
  assert (Hl' : currentLobby s' = Some l) by exact Hl.
  rewrite (toggleReady_run playerId s' l Hl' Hp).
  change (lobbyPlayers s') with data. cbv zeta. rewrite Hf, Hv. reflexivity.
Qed.

Lemma toggleReady_after_refresh_witness :
  completion (toggleReady "G"
                (final (refreshPlayers "L1" (Ok [mkPlayer "L1" "G" (Some false)]) host_ready)))
  = Returns true.
Proof.
  rewrite (toggleReady_after_refresh "G" "L1" host_ready lobby1
             [mkPlayer "L1" "G" (Some false)] (mkPlayer "L1" "G" (Some false)) false
             eq_refl eq_refl eq_refl eq_refl).
  reflexivity.
Defined.

(** ** Broadcasting *)

(** Outside a lobby [broadcastGameState] sends nothing.  In a lobby it
    sends the state as given, once, on the topic on which
    [listenForOpponentState] subscribes in the same session; neither
    changes the session. *)
Theorem broadcast_and_listen_share_topic (state : jsval) (playerId : string) (s : Session) :
  (currentLobby s = None ->
     broadcastGameState state s = mkRun (Returns tt) s [] /\
     listenForOpponentState playerId s = mkRun (Returns tt) s []) /\
  (forall l, currentLobby s = Some l ->
     exists topic,
       topic = ("game:" ++ lobby_id l)%string /\
       broadcastGameState state s = mkRun (Returns tt) s [BroadcastSend topic state] /\
       listenForOpponentState playerId s = mkRun (Returns tt) s [Subscribe topic]).
Proof.
  unfold broadcastGameState, listenForOpponentState, bind, read.
  cbn [completion final trace]. split.
  - intros ->. split; reflexivity.
  - intros l ->. eexists. repeat split.
Qed.

(** A state object without a [playerId] field, such as the documented
    [{score, bananas, gameOver}], passes the filter of every listener, the
    sender's own included: it is forwarded as received. *)
Theorem state_without_playerId_is_forwarded
    (self : string) (fields : list (string * jsval)) (s : Session) :
  lookup_field "playerId" fields = JUndefined ->
  opponentState self (mkBroadcast (JObj fields)) s =
    mkRun (Returns tt) s [OnOpponentScore (JObj fields)].
Proof.
  intros H. unfold opponentState. cbn [msg_payload get_prop]. rewrite H. reflexivity.
Qed.

Lemma state_without_playerId_is_forwarded_witness :
  trace (opponentState "A"
           (mkBroadcast (JObj [("score", JNum 12); ("bananas", JNum 3);
                               ("gameOver", JBool false)])) initial)
  = [OnOpponentScore (JObj [("score", JNum 12); ("bananas", JNum 3);
                            ("gameOver", JBool false)])].
Proof.
  rewrite (state_without_playerId_is_forwarded "A"
             [("score", JNum 12); ("bananas", JNum 3); ("gameOver", JBool false)]
             initial eq_refl).
  reflexivity.
Defined.

(** ** Lobby notifications *)


(** ** Histories: channels *)

Lemma checkAllReady_trace (s : Session) :
  trace (checkAllReady s) = [] \/
  exists lobbyId, trace (checkAllReady s) = [UpdateLobbyStatus lobbyId "playing"].
Proof.
  unfold checkAllReady, bind, read. cbn [completion final trace].
  destruct (negb (isHost s) || (List.length (lobbyPlayers s) <? 2)%nat); [left; reflexivity|].
  destruct (forallb _ (lobbyPlayers s)); [|left; reflexivity].
  cbn [completion final trace].
  destruct (currentLobby s) as [l|]; [right; exists (lobby_id l) | left]; reflexivity.
Qed.

Lemma channel_ops_app (t u : list Event) :
  channel_ops (t ++ u) = channel_ops t ++ channel_ops u.
Proof. apply filter_app. Qed.

Lemma playersChanged_run (lobbyId : string) (resp : Response (list Player)) (s : Session) :
  final (playersChanged lobbyId resp s) = refreshed resp s /\
  trace (playersChanged lobbyId resp s) =
    trace (refreshPlayers lobbyId resp s) ++ trace (checkAllReady (refreshed resp s)).
Proof.
  unfold playersChanged, bind.
  destruct (refreshPlayers_final lobbyId resp s) as [Hf Hc].
  rewrite Hc, Hf. cbn [final trace]. rewrite checkAllReady_final. split; reflexivity.
Qed.

(** What a step does to channels and handles: nothing; or it removes the
    channels held and holds none; or it removes them and subscribes to the
    two feeds of a lobby, holding those; or it subscribes to a broadcast
    channel and holds what it held. *)
Lemma perform_channels (client : bool) (c : Call) (s : Session) :
  let r := perform client c s in
  let gone := removal (lobbySubscription s) ++ removal (playersSubscription s) in
  (channel_ops (trace r) = [] /\
   lobbySubscription (final r) = lobbySubscription s /\
   playersSubscription (final r) = playersSubscription s) \/
  (channel_ops (trace r) = gone /\
   lobbySubscription (final r) = None /\ playersSubscription (final r) = None) \/
  (exists lobbyId,
     channel_ops (trace r) =
       gone ++ [Subscribe ("lobby:" ++ lobbyId)%string;
                Subscribe ("lobby_players:" ++ lobbyId)%string] /\
     lobbySubscription (final r) = Some ("lobby:" ++ lobbyId)%string /\
     playersSubscription (final r) = Some ("lobby_players:" ++ lobbyId)%string) \/
  (exists lobbyId,
     channel_ops (trace r) = [Subscribe ("game:" ++ lobbyId)%string] /\
     lobbySubscription (final r) = lobbySubscription s /\
     playersSubscription (final r) = playersSubscription s).
Proof.
  cbv zeta.
  destruct c; cbn [perform].
  - unfold discard, createLobby.
    destruct (negb client || falsy_str hostId); [left; repeat split|].
    destruct ins as [data|err]; [|left; repeat split].
    right; right; left. exists (lobby_id data).
    destruct s as [cur ps [l|] [p|] h], joined; repeat split.
  - unfold discard, findOrCreateLobby, createLobby.
    destruct (negb client || falsy_str playerId); [left; repeat split|].
    destruct found as [[|lobby others]|err].
    + destruct ins as [data|err]; [|left; repeat split].
      right; right; left. exists (lobby_id data).
      destruct s as [cur ps [l|] [p|] h], joined; repeat split.
    + right; right; left. exists (lobby_id lobby).
      destruct s as [cur ps [l|] [p|] h], joined; repeat split.
    + destruct ins as [data|err']; [|left; repeat split].
      right; right; left. exists (lobby_id data).
      destruct s as [cur ps [l|] [p|] h], joined; repeat split.
  - unfold discard, joinByCode.
    destruct (negb client || falsy_str playerId); [left; repeat split|].
    destruct found as [lobby|err]; [|left; repeat split].
    right; right; left. exists (lobby_id lobby).
    destruct s as [cur ps [l|] [p|] h], joined; repeat split.
  - left. unfold discard, toggleReady, bind, read. cbn [completion final trace].
    destruct (currentLobby s); [destruct (falsy_str playerId)|]; repeat split.
  - destruct (currentLobby s) as [l|] eqn:Hc.
    + destruct (falsy_str playerId) eqn:Hp.
      * left. rewrite leaveLobby_guard by (right; exact Hp). repeat split.
      * right; left. rewrite (leaveLobby_run playerId s l Hc Hp).
        destruct s as [cur ps [ls|] [pls|] [|]]; repeat split.
    + left. rewrite leaveLobby_guard by (left; exact Hc). repeat split.
  - left. unfold broadcastGameState, bind, read. cbn [completion final trace].
    destruct (currentLobby s); repeat split.
  - unfold listenForOpponentState, bind, read. cbn [completion final trace].
    destruct (currentLobby s) as [l|].
    + right; right; right. exists (lobby_id l). repeat split.
    + left. repeat split.
  - right; left. rewrite unsubscribe_run.
    destruct s as [cur ps [ls|] [pls|] h]; repeat split.
  - left. rewrite lobbyChanged_run.
    destruct (new_row payload) as [row|]; [|repeat split].
    destruct (String.eqb (lobby_status row) "playing"); repeat split.
  - left. destruct (playersChanged_run lobbyId resp s) as [Hf Ht].
    rewrite Hf, Ht, channel_ops_app.
    destruct (checkAllReady_trace (refreshed resp s)) as [-> | [x ->]];
      destruct resp; repeat split.
  - left. destruct resp; repeat split.
  - left. unfold opponentState.
    destruct (get_prop (msg_payload payload) "playerId") as [sender|]; [|repeat split].
    destruct (strict_neq_str sender self); repeat split.
Qed.

(** ** Invariants of reachable sessions *)

Lemma perform_keeps_cleared (client : bool) (c : Call) (s : Session) :
  (currentLobby s = None ->
     isHost s = false /\ lobbySubscription s = None /\ playersSubscription s = None) ->
  currentLobby (final (perform client c s)) = None ->
  isHost (final (perform client c s)) = false /\
  lobbySubscription (final (perform client c s)) = None /\
  playersSubscription (final (perform client c s)) = None.
Proof.
  intros Inv.
  destruct c; cbn [perform].
  - unfold discard, createLobby.
    destruct (negb client || falsy_str hostId); [exact Inv|].
    destruct ins as [data|err]; [|exact Inv].
    destruct s as [cur ps [l|] [p|] h], joined; intros H; discriminate H.
  - unfold discard, findOrCreateLobby, createLobby.
    destruct (negb client || falsy_str playerId); [exact Inv|].
    destruct found as [[|lobby others]|err].
    + destruct ins as [data|err]; [|exact Inv].
      destruct s as [cur ps [l|] [p|] h], joined; intros H; discriminate H.
    + destruct s as [cur ps [l|] [p|] h], joined; intros H; discriminate H.
    + destruct ins as [data|err']; [|exact Inv].
      destruct s as [cur ps [l|] [p|] h], joined; intros H; discriminate H.
  - unfold discard, joinByCode.
    destruct (negb client || falsy_str playerId); [exact Inv|].
    destruct found as [lobby|err]; [|exact Inv].
    destruct s as [cur ps [l|] [p|] h], joined; intros H; discriminate H.
  - rewrite discard_final, toggleReady_final. exact Inv.
  - destruct (currentLobby s) as [l|] eqn:Hc.
    + destruct (falsy_str playerId) eqn:Hp.
      * rewrite leaveLobby_guard by (right; exact Hp). cbn [final].
        rewrite Hc. exact Inv.
      * rewrite (leaveLobby_run playerId s l Hc Hp). repeat split.
    + rewrite leaveLobby_guard by (left; exact Hc). cbn [final].
      rewrite Hc. exact Inv.
  - rewrite broadcastGameState_final. exact Inv.
  - rewrite listenForOpponentState_final. exact Inv.
  - rewrite unsubscribe_run. cbn [final].
    intros H. destruct (Inv H) as (Hh & _ & _). repeat split. exact Hh.
  - rewrite lobbyChanged_run. destruct (new_row payload); [|exact Inv].
    intros H; discriminate H.
  - destruct (playersChanged_run lobbyId resp s) as [Hf _]. rewrite Hf.
    destruct resp; exact Inv.
  - destruct resp; exact Inv.
  - unfold opponentState.
    destruct (get_prop (msg_payload payload) "playerId") as [sender|]; [|exact Inv].
    destruct (strict_neq_str sender self); exact Inv.
Qed.

Lemma perform_keeps_paired (client : bool) (c : Call) (s : Session) :
  handles_paired s -> handles_paired (final (perform client c s)).
Proof.
  intros Inv. unfold handles_paired.
  destruct (perform_channels client c s)
    as [(_ & -> & ->) | [(_ & -> & ->) | [(x & _ & -> & ->) | (x & _ & -> & ->)]]].
  - exact Inv.
  - left; split; reflexivity.
  - right; exists x; split; reflexivity.
  - exact Inv.
Qed.

Lemma playersChanged_resume_final (resp : Response (list Player)) (s : Session) :
  final (playersChanged_resume resp s) = refreshed resp s.
Proof.
  unfold playersChanged_resume, bind.
  destruct resp as [data|err]; cbn [refreshPlayers_resume].
  - unfold bind. cbn [modify read emit completion final trace].
    apply checkAllReady_final.
  - cbn [ret completion final]. apply checkAllReady_final.
Qed.

(** What a segment does to current lobby, role and handles: it keeps all
    four; or it sets a current lobby and keeps the handles; or it keeps
    lobby and role and holds the two feeds of one lobby; or it clears lobby,
    role and handles. *)
Lemma run_segment_cases (client : bool) (g : Segment) (s : Session) :
  (exists c, g = Whole c) \/
  (currentLobby (final (run_segment client g s)) = currentLobby s /\
   isHost (final (run_segment client g s)) = isHost s /\
   lobbySubscription (final (run_segment client g s)) = lobbySubscription s /\
   playersSubscription (final (run_segment client g s)) = playersSubscription s) \/
  (currentLobby (final (run_segment client g s)) <> None /\
   lobbySubscription (final (run_segment client g s)) = lobbySubscription s /\
   playersSubscription (final (run_segment client g s)) = playersSubscription s) \/
  (exists lobbyId,
     currentLobby (final (run_segment client g s)) = currentLobby s /\
     isHost (final (run_segment client g s)) = isHost s /\
     lobbySubscription (final (run_segment client g s)) = Some ("lobby:" ++ lobbyId)%string /\
     playersSubscription (final (run_segment client g s))
       = Some ("lobby_players:" ++ lobbyId)%string) \/
  (isHost (final (run_segment client g s)) = false /\
   lobbySubscription (final (run_segment client g s)) = None /\
   playersSubscription (final (run_segment client g s)) = None).
Proof.
  destruct g; cbn [run_segment]; rewrite ?discard_final.
  - left. exists c. reflexivity.
  - right; left. unfold createLobby_call.
    destruct (negb client || falsy_str hostId); repeat split.
  - destruct ins as [data|err].
    + right; right; left. repeat split. intros H; discriminate H.
    + right; left. repeat split.
  - right; right; right; left. exists (lobby_id lobby).
    rewrite entered_run. repeat split.
  - right; left. unfold joinByCode_call.
    destruct (negb client || falsy_str playerId); repeat split.
  - destruct found as [lobby|err].
    + right; right; left. repeat split. intros H; discriminate H.
    + right; left. repeat split.
  - right; left. unfold findOrCreateLobby_call.
    destruct (negb client || falsy_str playerId); repeat split.
  - unfold findOrCreateLobby_found, createLobby_call.
    destruct found as [[|lobby others]|err].
    + right; left. destruct (negb client || falsy_str playerId); repeat split.
    + right; right; left. repeat split. intros H; discriminate H.
    + right; left. destruct (negb client || falsy_str playerId); repeat split.
  - right; left. unfold leaveLobby_call, bind, read.
    destruct s as [[cur|] ps l p h]; cbn [completion final trace currentLobby];
      [destruct (falsy_str playerId)|]; repeat split.
  - destruct s as [[cur|] ps [l|] [p|] [|]];
      first [ right; left; repeat split; fail
            | right; right; right; right; repeat split ].
  - right; right; right; right.
    destruct s as [cur ps [l|] [p|] h]; repeat split.
  - right; left. repeat split.
  - right; left. rewrite playersChanged_resume_final.
    destruct resp; repeat split.
Qed.

Lemma run_segment_keeps_host_has_lobby (client : bool) (g : Segment) (s : Session) :
  host_has_lobby s -> host_has_lobby (final (run_segment client g s)).
Proof.
  intros Inv.
  destruct (run_segment_cases client g s)
    as [(c & ->) | [(Hc & Hh & _) | [(Hc & _) | [(x & Hc & Hh & _) | (Hh & _)]]]];
    [apply perform_keeps_host_has_lobby, Inv | unfold host_has_lobby in * ..].
  - rewrite Hc, Hh. exact Inv.
  - intros _. exact Hc.
  - rewrite Hc, Hh. exact Inv.
  - rewrite Hh. intros H; discriminate H.
Qed.

Lemma run_segment_keeps_paired (client : bool) (g : Segment) (s : Session) :
  handles_paired s -> handles_paired (final (run_segment client g s)).
Proof.
  intros Inv.
  destruct (run_segment_cases client g s)
    as [(c & ->) | [(_ & _ & Hl & Hp) | [(_ & Hl & Hp) | [(x & _ & _ & Hl & Hp) | (_ & Hl & Hp)]]]].
  - apply perform_keeps_paired, Inv.
  - unfold handles_paired. rewrite Hl, Hp. exact Inv.
  - unfold handles_paired. rewrite Hl, Hp. exact Inv.
  - right. exists x. split; assumption.
  - left. split; assumption.
Qed.

Lemma reachable_interleaved (client : bool) (s : Session) :
  reachable client s -> interleaved client s.
Proof.
  induction 1 as [|s c Hs IH]; [apply inter_initial|].
  apply (inter_step client s (Whole c) IH).
Qed.

(** In every session a service can be in, however its calls and the
    notifications interleave at the awaits: a host has a current lobby, and
    the handles held are both null or those of the two feeds of one
    lobby. *)
Theorem interleaved_session_wf (client : bool) (s : Session) :
  interleaved client s -> host_has_lobby s /\ handles_paired s.
Proof.
  induction 1 as [|s g Hs (IH1 & IH2)].
  - split; [intros H; discriminate H | left; split; reflexivity].
  - split.
    + apply run_segment_keeps_host_has_lobby, IH1.
    + apply run_segment_keeps_paired, IH2.
Qed.

Lemma interleaved_session_wf_witness :
  let s := final (run_segment true (Entered lobby1 None)
             (final (run_segment true (Whole (LeaveLobby "H"))
                (final (run_segment true (CreateLobbyInserted "H" (Ok lobby1))
                   (final (run_segment true (CreateLobbyCall "H" "snow" "0.4fzyo82mvyr")
                      initial))))))) in
  host_has_lobby s /\ handles_paired s.
Proof.
  apply (interleaved_session_wf true).
  repeat apply inter_step. apply inter_initial.
Defined.

(** The handles can outlive the lobby: [createLobby] resumed after a
    [leaveLobby] that ran during its membership insert subscribes again
    although there is no current lobby any more. *)
Example handles_outlive_lobby :
  final (run_segment true (Entered lobby1 None)
     (final (run_segment true (Whole (LeaveLobby "H"))
        (final (run_segment true (CreateLobbyInserted "H" (Ok lobby1))
           (final (run_segment true (CreateLobbyCall "H" "snow" "0.4fzyo82mvyr")
              initial)))))))
  = mkSession None [] (Some "lobby:L1") (Some "lobby_players:L1") false.
Proof. reflexivity. Qed.

Lemma returning_step_does_not_raise (c : Call) (r : Run unit) :
  (forall self payload, c <> OpponentState self payload) ->
  completion r = Returns tt ->
  (completion r = Throws <->
   exists self payload,
     c = OpponentState self payload /\
     get_prop (msg_payload payload) "playerId" = None).
Proof.
  intros Hc Hr. rewrite Hr. split.
  - intros H; discriminate H.
  - intros (x & y & H & _). exfalso. exact (Hc x y H).
Qed.

(** Where a host has a current lobby, and so in every reachable session,
    the only step that can raise is the broadcast handler, and it raises
    exactly on a message whose payload is [undefined] or [null]. *)
Theorem only_the_broadcast_handler_raises (client : bool) (c : Call) (s : Session) :
  host_has_lobby s ->
  (completion (perform client c s) = Throws <->
   exists self payload,
     c = OpponentState self payload /\
     get_prop (msg_payload payload) "playerId" = None).
Proof.
  intros Inv.
  destruct c; cbn [perform];
    try (apply returning_step_does_not_raise; [intros ? ? H; discriminate H|]).
  - unfold discard, createLobby.
    destruct (negb client || falsy_str hostId); [reflexivity|].
    destruct ins as [data|err]; [|reflexivity].
    destruct s as [cur ps [l|] [p|] h], joined; reflexivity.
  - unfold discard, findOrCreateLobby, createLobby.
    destruct (negb client || falsy_str playerId); [reflexivity|].
    destruct found as [[|lobby others]|err].
    + destruct ins as [data|err]; [|reflexivity].
      destruct s as [cur ps [l|] [p|] h], joined; reflexivity.
    + destruct s as [cur ps [l|] [p|] h], joined; reflexivity.
    + destruct ins as [data|err']; [|reflexivity].
      destruct s as [cur ps [l|] [p|] h], joined; reflexivity.
  - unfold discard, joinByCode.
    destruct (negb client || falsy_str playerId); [reflexivity|].
    destruct found as [lobby|err]; [|reflexivity].
    destruct s as [cur ps [l|] [p|] h], joined; reflexivity.
  - unfold discard, toggleReady, bind, read. cbn [completion final trace].
    destruct (currentLobby s); [destruct (falsy_str playerId)|]; reflexivity.
  - destruct (currentLobby s) as [l|] eqn:Hc.
    + destruct (falsy_str playerId) eqn:Hp.
      * rewrite leaveLobby_guard by (right; exact Hp). reflexivity.
      * rewrite (leaveLobby_run playerId s l Hc Hp). reflexivity.
    + rewrite leaveLobby_guard by (left; exact Hc). reflexivity.
  - unfold broadcastGameState, bind, read. cbn [completion final trace].
    destruct (currentLobby s); reflexivity.
  - unfold listenForOpponentState, bind, read. cbn [completion final trace].
    destruct (currentLobby s); reflexivity.
  - rewrite unsubscribe_run. reflexivity.
  - rewrite lobbyChanged_run. destruct (new_row payload); reflexivity.
  - unfold playersChanged, bind.
    destruct (refreshPlayers_final lobbyId resp s) as [Hf Hc]. rewrite Hc, Hf.
    cbn [completion].
    assert (Inv' : host_has_lobby (refreshed resp s)) by (destruct resp; exact Inv).
    revert Inv'. generalize (refreshed resp s). intros s' Inv'.
    unfold host_has_lobby in Inv'.
    unfold checkAllReady, bind, read. cbn [completion final trace].
    destruct (isHost s'); cbn [negb orb]; [|reflexivity].
    destruct (List.length (lobbyPlayers s') <? 2)%nat; [reflexivity|].
    destruct (forallb _ (lobbyPlayers s')); [|reflexivity].
    cbn [completion final trace].
    destruct (currentLobby s'); [reflexivity|].
    exfalso. apply Inv'; reflexivity.
  - destruct resp; reflexivity.
  - unfold opponentState.
    destruct (get_prop (msg_payload payload) "playerId") as [sender|] eqn:Hg.
    + split.
      * destruct (strict_neq_str sender self); intros H; discriminate H.
      * intros (x & y & H & Hn). injection H as <- <-. rewrite Hg in Hn. discriminate Hn.
    + split; [intros _ | reflexivity].
      exists self, payload. split; [reflexivity | exact Hg].
Qed.

Lemma only_the_broadcast_handler_raises_witness :
  completion (perform true (OpponentState "A" (mkBroadcast JNull)) host_ready) = Throws.
Proof.
  apply (only_the_broadcast_handler_raises true (OpponentState "A" (mkBroadcast JNull))
           host_ready).
  - intros _ H; discriminate H.
  - exists "A", (mkBroadcast JNull). split; reflexivity.
Defined.

(** ** Who writes what *)

(** A process that is not host never updates the status of a lobby and
    never deletes one, whatever step it makes. *)
Theorem guest_never_writes_lobby (client : bool) (c : Call) (s : Session) :
  isHost s = false ->
  filter is_host_write (trace (perform client c s)) = [].
Proof.
  intros Hh.
  destruct c; cbn [perform].
  - unfold discard, createLobby.
    destruct (negb client || falsy_str hostId); [reflexivity|].
    destruct ins as [data|err]; [|reflexivity].
    destruct s as [cur ps [l|] [p|] h], joined; reflexivity.
  - unfold discard, findOrCreateLobby, createLobby.
    destruct (negb client || falsy_str playerId); [reflexivity|].
    destruct found as [[|lobby others]|err].
    + destruct ins as [data|err]; [|reflexivity].
      destruct s as [cur ps [l|] [p|] h], joined; reflexivity.
    + destruct s as [cur ps [l|] [p|] h], joined; reflexivity.
    + destruct ins as [data|err']; [|reflexivity].
      destruct s as [cur ps [l|] [p|] h], joined; reflexivity.
  - unfold discard, joinByCode.
    destruct (negb client || falsy_str playerId); [reflexivity|].
    destruct found as [lobby|err]; [|reflexivity].
    destruct s as [cur ps [l|] [p|] h], joined; reflexivity.
  - unfold discard, toggleReady, bind, read. cbn [completion final trace].
    destruct (currentLobby s); [destruct (falsy_str playerId)|]; reflexivity.
  - destruct (currentLobby s) as [l|] eqn:Hc.
    + destruct (falsy_str playerId) eqn:Hp.
      * rewrite leaveLobby_guard by (right; exact Hp). reflexivity.
      * rewrite (leaveLobby_run playerId s l Hc Hp), Hh.
        destruct (lobbySubscription s), (playersSubscription s); reflexivity.
    + rewrite leaveLobby_guard by (left; exact Hc). reflexivity.
  - unfold broadcastGameState, bind, read. cbn [completion final trace].
    destruct (currentLobby s); reflexivity.
  - unfold listenForOpponentState, bind, read. cbn [completion final trace].
    destruct (currentLobby s); reflexivity.
  - rewrite unsubscribe_run.
    destruct (lobbySubscription s), (playersSubscription s); reflexivity.
  - rewrite lobbyChanged_run. destruct (new_row payload) as [row|]; [|reflexivity].
    destruct (String.eqb (lobby_status row) "playing"); reflexivity.
  - destruct (playersChanged_run lobbyId resp s) as [_ Ht]. rewrite Ht, filter_app.
    assert (Hc : trace (checkAllReady (refreshed resp s)) = []).
    { unfold checkAllReady, bind, read. cbn [completion final trace].
      replace (isHost (refreshed resp s)) with false by (destruct resp; symmetry; exact Hh).
      reflexivity. }
    rewrite Hc. destruct resp; reflexivity.
  - destruct resp; reflexivity.
  - unfold opponentState.
    destruct (get_prop (msg_payload payload) "playerId") as [sender|]; [|reflexivity].
    destruct (strict_neq_str sender self); reflexivity.
Qed.

Lemma guest_never_writes_lobby_witness :
  filter is_host_write (trace (perform true (LeaveLobby "G") guest_waiting)) = [].
Proof.
  exact (guest_never_writes_lobby true (LeaveLobby "G") guest_waiting eq_refl).
Defined.

(** A notification, from either feed or from the broadcast channel, never
    changes the role or the handles, and opens or closes no channel. *)
Theorem notifications_keep_role_and_handles (client : bool) (c : Call) (s : Session) :
  is_notification c = true ->
  isHost (final (perform client c s)) = isHost s /\
  lobbySubscription (final (perform client c s)) = lobbySubscription s /\
  playersSubscription (final (perform client c s)) = playersSubscription s /\
  channel_ops (trace (perform client c s)) = [].
Proof.
  intros Hn. destruct c; try discriminate Hn; cbn [perform].
  - rewrite lobbyChanged_run. destruct (new_row payload) as [row|]; [|repeat split].
    destruct (String.eqb (lobby_status row) "playing"); repeat split.
  - destruct (playersChanged_run lobbyId resp s) as [Hf Ht].
    rewrite Hf, Ht, channel_ops_app.
    destruct (checkAllReady_trace (refreshed resp s)) as [-> | [x ->]];
      destruct resp; repeat split.
  - destruct resp; repeat split.
  - unfold opponentState.
    destruct (get_prop (msg_payload payload) "playerId") as [sender|]; [|repeat split].
    destruct (strict_neq_str sender self); repeat split.
Qed.

Lemma notifications_keep_role_and_handles_witness :
  isHost (final (perform true (LobbyChanged now_playing) guest_waiting)) = false.
Proof.
  apply (notifications_keep_role_and_handles true (LobbyChanged now_playing) guest_waiting
           eq_refl).
Defined.

(** ** Histories: which channels stay open *)

Lemma open_channels_from_app (open : list string) (t u : list Event) :
  open_channels_from open (t ++ u) = open_channels_from (open_channels_from open t) u.
Proof.
  revert open; induction t as [|e t IH]; intros open; [reflexivity|].
  destruct e; cbn [app open_channels_from]; apply IH.
Qed.

Lemma open_channels_from_ops (open : list string) (t : list Event) :
  open_channels_from open t = open_channels_from open (channel_ops t).
Proof.
  revert open; induction t as [|e t IH]; intros open; [reflexivity|].
  destruct e; cbn [channel_ops filter is_channel_event open_channels_from]; apply IH.
Qed.

Lemma in_channel_ops (e : Event) (t : list Event) :
  In e (channel_ops t) <-> In e t /\ is_channel_event e = true.
Proof. apply filter_In. Qed.

Lemma feed_channels_app (a b : list string) :
  feed_channels (a ++ b) = feed_channels a ++ feed_channels b.
Proof. apply filter_app. Qed.

Lemma feed_channels_remove (ch : string) (open : list string) :
  feed_channels (remove string_dec ch open) = remove string_dec ch (feed_channels open).
Proof.
  induction open as [|x open IH]; [reflexivity|].
  cbn [remove]. destruct (string_dec ch x) as [->|Hne].
  - unfold feed_channels in *. cbn [filter].
    destruct (negb (is_game_topic x)); [|exact IH].
    cbn [remove]. destruct (string_dec x x) as [_|H]; [exact IH | exfalso; apply H; reflexivity].
  - unfold feed_channels in *. cbn [filter].
    destruct (negb (is_game_topic x)); [|exact IH].
    cbn [remove]. destruct (string_dec ch x) as [H|_]; [exfalso; exact (Hne H)|].
    rewrite IH. reflexivity.
Qed.

Lemma remove_both (a b : string) :
  remove string_dec b (remove string_dec a [a; b]) = [].
Proof.
  cbn [remove].
  destruct (string_dec a a) as [_|H]; [|exfalso; apply H; reflexivity].
  destruct (string_dec a b) as [_|_]; cbn [remove]; [reflexivity|].
  destruct (string_dec b b) as [_|H]; [reflexivity | exfalso; apply H; reflexivity].
Qed.

Lemma lobby_topic_is_feed (lobbyId : string) :
  is_game_topic ("lobby:" ++ lobbyId) = false /\
  is_game_topic ("lobby_players:" ++ lobbyId) = false /\
  is_game_topic ("game:" ++ lobbyId) = true.
Proof. destruct lobbyId; repeat split. Qed.

(** The step of the invariant: the open feed channels are the handles
    held. *)
Lemma perform_keeps_feeds (client : bool) (c : Call) (s : Session) (open : list string) :
  handles_paired s ->
  feed_channels open = held s ->
  feed_channels (open_channels_from open (trace (perform client c s)))
  = held (final (perform client c s)).
Proof.
  intros Hp Hf. rewrite open_channels_from_ops.
  assert (Hgone : feed_channels
                    (open_channels_from open
                       (removal (lobbySubscription s) ++ removal (playersSubscription s)))
                  = []).
  { unfold held in Hf.
    destruct Hp as [(Hl & Hpl) | (x & Hl & Hpl)]; rewrite Hl, Hpl in *.
    - exact Hf.
    - cbn [removal app open_channels_from].
      rewrite !feed_channels_remove, Hf. apply remove_both. }
  unfold held.
  destruct (perform_channels client c s)
    as [(-> & -> & ->) | [(-> & -> & ->) | [(x & -> & -> & ->) | (x & -> & -> & ->)]]].
  - exact Hf.
  - exact Hgone.
  - rewrite open_channels_from_app. cbn [open_channels_from].
    rewrite !feed_channels_app, Hgone.
    destruct (lobby_topic_is_feed x) as (Hl & Hpl & _).
    unfold feed_channels. cbn [filter]. rewrite Hl, Hpl. reflexivity.
  - cbn [open_channels_from]. rewrite feed_channels_app.
    destruct (lobby_topic_is_feed x) as (_ & _ & Hg).
    unfold feed_channels at 2. cbn [filter]. rewrite Hg. cbn [negb].
    rewrite app_nil_r. exact Hf.
Qed.

Lemma history_keeps_feeds (client : bool) (cs : list Call) (s : Session) (open : list string) :
  handles_paired s ->
  feed_channels open = held s ->
  feed_channels (open_channels_from open (snd (history client cs s)))
  = held (fst (history client cs s)).
Proof.
  revert s open; induction cs as [|c cs IH]; intros s open Hp Hf.
  - exact Hf.
  - cbn [history fst snd]. rewrite open_channels_from_app.
    apply IH.
    + apply perform_keeps_paired, Hp.
    + apply perform_keeps_feeds; assumption.
Qed.

(** Change-feed channels never pile up: after any sequence of steps of a
    service, the open channels other than the broadcast ones are exactly
    the handles the session holds, none or the two feeds of one lobby. *)
Theorem feed_channels_never_pile_up (client : bool) (cs : list Call) :
  feed_channels (open_channels (snd (history client cs initial)))
    = held (fst (history client cs initial)) /\
  List.length (feed_channels (open_channels (snd (history client cs initial)))) <= 2.
Proof.
  assert (H : feed_channels (open_channels (snd (history client cs initial)))
              = held (fst (history client cs initial))).
  { apply history_keeps_feeds; [left; split; reflexivity | reflexivity]. }
  split; [exact H|].
  rewrite H. unfold held.
  destruct (lobbySubscription _), (playersSubscription _); cbn; lia.
Qed.

Lemma held_are_feeds (s : Session) (ch : string) :
  handles_paired s ->
  In (RemoveChannel ch) (removal (lobbySubscription s) ++ removal (playersSubscription s)) ->
  is_game_topic ch = false.
Proof.
  intros [(Hl & Hp) | (x & Hl & Hp)]; rewrite Hl, Hp; cbn [removal app].
  - intros [].
  - destruct (lobby_topic_is_feed x) as (H1 & H2 & _).
    intros [H|[H|[]]]; injection H as <-; assumption.
Qed.

Lemma perform_removes_feeds_only (client : bool) (c : Call) (s : Session) (ch : string) :
  handles_paired s ->
  In (RemoveChannel ch) (trace (perform client c s)) ->
  is_game_topic ch = false.
Proof.
  intros Hp Hin.
  assert (Hops : In (RemoveChannel ch) (channel_ops (trace (perform client c s)))).
  { apply in_channel_ops. split; [exact Hin | reflexivity]. }
  clear Hin.
  destruct (perform_channels client c s)
    as [(Ho & _) | [(Ho & _) | [(x & Ho & _) | (x & Ho & _)]]]; rewrite Ho in Hops.
  - destruct Hops.
  - apply (held_are_feeds s ch Hp Hops).
  - apply in_app_or in Hops as [H|H].
    + apply (held_are_feeds s ch Hp H).
    + destruct H as [H|[H|[]]]; discriminate H.
  - destruct Hops as [H|[]]; discriminate H.
Qed.

Lemma in_open_after_removal (s : Session) (open : list string) (g : string) :
  handles_paired s ->
  is_game_topic g = true ->
  In g open ->
  In g (open_channels_from open
          (removal (lobbySubscription s) ++ removal (playersSubscription s))).
Proof.
  intros Hp Hg Hin.
  assert (Hne : forall ch,
             In (RemoveChannel ch)
                (removal (lobbySubscription s) ++ removal (playersSubscription s)) ->
             g <> ch).
  { intros ch Hch Heq. subst ch.
    rewrite (held_are_feeds s g Hp Hch) in Hg. discriminate Hg. }
  destruct (lobbySubscription s) as [l|], (playersSubscription s) as [p|];
    cbn [removal app open_channels_from] in *.
  - apply in_in_remove; [apply Hne; right; left; reflexivity|].
    apply in_in_remove; [apply Hne; left; reflexivity | exact Hin].
  - apply in_in_remove; [apply Hne; left; reflexivity | exact Hin].
  - apply in_in_remove; [apply Hne; left; reflexivity | exact Hin].
  - exact Hin.
Qed.

Lemma perform_keeps_game_open
    (client : bool) (c : Call) (s : Session) (open : list string) (g : string) :
  handles_paired s ->
  is_game_topic g = true ->
  In g open \/ In (Subscribe g) (trace (perform client c s)) ->
  In g (open_channels_from open (trace (perform client c s))).
Proof.
  intros Hp Hg Hin. rewrite open_channels_from_ops.
  assert (Hin' : In g open \/ In (Subscribe g) (channel_ops (trace (perform client c s)))).
  { destruct Hin as [H|H]; [left; exact H | right].
    apply in_channel_ops. split; [exact H | reflexivity]. }
  clear Hin.
  assert (Hnot : ~ In (Subscribe g)
                     (removal (lobbySubscription s) ++ removal (playersSubscription s))).
  { destruct (lobbySubscription s), (playersSubscription s); cbn [removal app];
      intros H; repeat (destruct H as [H|H]; [discriminate H|]); exact H. }
  destruct (perform_channels client c s)
    as [(Ho & _) | [(Ho & _) | [(x & Ho & _) | (x & Ho & _)]]]; rewrite Ho in *.
  - destruct Hin' as [H|[]]. exact H.
  - destruct Hin' as [H|H]; [|contradiction].
    apply in_open_after_removal; assumption.
  - rewrite open_channels_from_app. cbn [open_channels_from].
    apply in_or_app; left. apply in_or_app; left.
    destruct Hin' as [H|H]; [apply in_open_after_removal; assumption|].
    exfalso. apply in_app_or in H as [H|H]; [contradiction|].
    destruct (lobby_topic_is_feed x) as (H1 & H2 & _).
    destruct H as [H|[H|[]]]; injection H as <-;
      apply Bool.diff_true_false; rewrite <- Hg; first [exact H1 | exact H2].
  - cbn [open_channels_from]. apply in_or_app.
    destruct Hin' as [H|[H|[]]]; [left; exact H | right].
    injection H as <-. left; reflexivity.
Qed.

Lemma history_keeps_game_open
    (client : bool) (cs : list Call) (s : Session) (open : list string) (g : string) :
  handles_paired s ->
  is_game_topic g = true ->
  In g open \/ In (Subscribe g) (snd (history client cs s)) ->
  In g (open_channels_from open (snd (history client cs s))).
Proof.
  revert s open; induction cs as [|c cs IH]; intros s open Hp Hg Hin.
  - destruct Hin as [H|[]]. exact H.
  - cbn [history fst snd] in *. rewrite open_channels_from_app.
    apply IH; [apply perform_keeps_paired, Hp | exact Hg |].
    destruct Hin as [H|H].
    + left. apply perform_keeps_game_open; auto.
    + apply in_app_or in H as [H|H]; [left | right; exact H].
      apply perform_keeps_game_open; auto.
Qed.

Lemma history_removes_feeds_only
    (client : bool) (cs : list Call) (s : Session) (ch : string) :
  handles_paired s ->
  In (RemoveChannel ch) (snd (history client cs s)) ->
  is_game_topic ch = false.
Proof.
  revert s; induction cs as [|c cs IH]; intros s Hp Hin.
  - destruct Hin.
  - cbn [history fst snd] in Hin. apply in_app_or in Hin as [H|H].
    + apply (perform_removes_feeds_only client c s ch Hp H).
    + apply (IH (final (perform client c s))); [apply perform_keeps_paired, Hp | exact H].
Qed.

(** Broadcast channels are never closed: in the trace of any sequence of
    steps of a service no [removeChannel] is made on a broadcast topic, and
    every broadcast channel [listenForOpponentState] has subscribed to is
    still open at the end, whatever was called since, [leaveLobby] and
    [unsubscribe] included. *)
Theorem broadcast_channels_stay_open (client : bool) (cs : list Call) (topic : string) :
  is_game_topic topic = true ->
  ~ In (RemoveChannel topic) (snd (history client cs initial)) /\
  (In (Subscribe topic) (snd (history client cs initial)) ->
   In topic (open_channels (snd (history client cs initial)))).
Proof.
  intros Hg.
  assert (Hp : handles_paired initial) by (left; split; reflexivity).
  split.
  - intros H. rewrite (history_removes_feeds_only client cs initial topic Hp H) in Hg.
    discriminate Hg.
  - intros H. apply history_keeps_game_open; [exact Hp | exact Hg | right; exact H].
Qed.

Lemma broadcast_channels_stay_open_witness :
  In "game:L1"
     (open_channels
        (snd (history true
                [CreateLobby "H" "snow" "0.4fzyo82mvyr" (Ok lobby1) None;
                 ListenForOpponentState "H"; LeaveLobby "H"; Unsubscribe]
                initial))).
Proof.
  apply (broadcast_channels_stay_open true
           [CreateLobby "H" "snow" "0.4fzyo82mvyr" (Ok lobby1) None;
            ListenForOpponentState "H"; LeaveLobby "H"; Unsubscribe]
           "game:L1" eq_refl).
  simpl. auto 20.
Defined.

(** The sessions reached by histories are the reachable ones. *)
Lemma history_reachable (client : bool) (cs : list Call) (s : Session) :
  reachable client s -> reachable client (fst (history client cs s)).
Proof.
  revert s; induction cs as [|c cs IH]; intros s Hr; [exact Hr|].
  cbn [history fst]. apply IH. apply reach_step, Hr.
Qed.

(** ** Becoming host *)



(** ** Witnesses of the lemmas on codes and on the guard of [toggleReady] *)

Lemma generateLobbyCode_of_digits_witness :
  String.length (generateLobbyCode ("0." ++ "4fzyo82mvyr")) = 6.
Proof.
  apply (generateLobbyCode_of_digits "4fzyo82mvyr" eq_refl).
Defined.

Lemma toggleReady_guard_witness :
  toggleReady "" host_ready = mkRun (Returns false) host_ready [].
Proof.
  apply (toggleReady_guard "" host_ready). right; reflexivity.
Defined.
